(** * Voice-agent orchestrator: the per-call pipeline, embedded from the source

    The development follows the Python sources:
    - [RedisClient]       src/src/redis_client.py        (Session Store client)
    - [CoreAIPipeline]    src/src/core_ai_pipeline.py    (delegated controller)
    - [GeminiService]     src/src/services/gemini_service.py ([generate_response])
    - [Orchestrator]      src/ai_orchestrator.py         (directly hosted
                          controller, outbound call initiation)
    - [AIOrchestrator]    src/src/ai_orchestrator.py     (telephony backend,
                          call bring-up webhook)
    - [WebSocketServer]   src/src/server.py              (browser greeting)

    Conventions.  A coroutine becomes a computation in a state-and-exception
    monad over a [world]; every call to a collaborator appends one [effect] to
    the world's trace, so the trace lists what happened in program order and a
    prefix of the trace is an instant of the call.  What a collaborator that is
    not part of the repository answers (the redis library's encoder, the
    recognizer, the language model, the synthesizer, the socket, the database)
    is supplied by an environment indexed by the instant of the call, so a
    statement that holds for every environment holds whatever the
    collaborators do.  The classes [CoreAIPipeline] and [AIOrchestrator]
    receive their collaborators as constructor arguments, and their calls are
    answered by the environment.  The endpoints and handlers that are
    functions of a module call the clients that module instantiates itself:
    there a call to a method the client's class does not define, or with
    arguments its signature cannot bind, raises at the call site on every
    input ([AttributeError], [TypeError]), and is embedded so. *)

From Stdlib Require Import String Ascii ZArith List Lia Bool Sorted.
From stdpp Require Import base option gmap strings list.

Local Open Scope string_scope.
Local Open Scope list_scope.

(** ** Python values that reach the Session Store *)

(** The values the handlers pass to [set_call_data]: [None], a [bool], a
    [str], or a [dict]/[list], the latter carried by its [json.dumps] text. *)
Inductive pyval :=
| PNone
| PBool (b : bool)
| PStr (s : string)
| PDoc (dumped : string).

(** [isinstance(value, (dict, list))] *)
Definition is_dict_or_list (v : pyval) : bool :=
  match v with PDoc _ => true | _ => false end.

(** [json.dumps(value)] for a [dict] or [list]. *)
Definition json_dumps_doc (v : pyval) : pyval :=
  match v with PDoc t => PStr t | _ => v end.

(** [str(b).lower()] for a Python [bool]. *)
Definition str_lower_bool (b : bool) : string :=
  if b then "true" else "false".

(** [str(b)] for a Python [bool]. *)
Definition py_str_bool (b : bool) : string :=
  if b then "True" else "False".

(** Outcome of a call that may raise. *)
Inductive res (A : Type) :=
| Ok (a : A)
| Raised (what : string).
Arguments Ok {A} a.
Arguments Raised {A} what.

(** ** The redis library under the client

    The library turns the Python value handed to [SET] into the string that is
    stored.  A [str] is stored as its text.  What happens to any other value is
    not decided by the repository, so it is a parameter
    [wire : pyval -> option string] ([None]: the library refuses the value and
    raises).  Two instances are the behaviours of the library's releases. *)

(** Releases that ship [redis.asyncio]: [bool] and [None] are refused
    ("Convert to a bytes, string, int or float first"). *)
Definition wire_strict (v : pyval) : option string :=
  match v with
  | PStr s => Some s
  | PDoc _ | PBool _ | PNone => None
  end.

(** Older releases: the value is sent as [str(value)]. *)
Definition wire_str (v : pyval) : option string :=
  match v with
  | PStr s => Some s
  | PBool b => Some (py_str_bool b)
  | PNone => Some "None"
  | PDoc t => Some t
  end.

Module RedisClient.

(** [self._client] and the server behind it: string keys, list keys.
    Expiry is not modelled (reads happen within the time to live). *)
Record t := {
  connected : bool;                      (* [self._client] is not [None] *)
  strings : gmap string string;          (* keys holding a string *)
  lists : gmap string (list pyval);      (* keys holding a list; an element
                                            stands for its [json.dumps] text *)
}.

Definition empty : t :=
  {| connected := true; strings := ∅; lists := ∅ |}.

(** [f"call:{call_id}:{key}"] *)
Definition redis_key (call_id key : string) : string :=
  ("call:" ++ call_id ++ ":" ++ key)%string.

(** [_ensure_connection] *)
Definition _ensure_connection (c : t) : res unit :=
  if connected c then Ok tt else Raised "RuntimeError".

Section Client.
Variable wire : pyval -> option string.

(** What the library stores for [value]. *)
Definition encode (v : pyval) : option string :=
  match v with
  | PStr s => Some s
  | _ => wire v
  end.

(** [await self._client.set(redis_key, value, ex=expiry)] *)
Definition client_set (c : t) (k : string) (v : pyval) : res t :=
  match encode v with
  | Some w =>
      Ok {| connected := connected c;
            strings := <[k := w]> (strings c);
            lists := delete k (lists c) |}
  | None => Raised "DataError"
  end.

(** [set_call_data] *)
Definition set_call_data (c : t) (call_id key : string) (value : pyval)
  : res t :=
  match _ensure_connection c with
  | Raised e => Raised e
  | Ok _ =>
      let value :=
        if is_dict_or_list value then json_dumps_doc value else value in
      client_set c (redis_key call_id key) value
  end.

(** [set_ai_speaking]: writes [str(is_speaking).lower()] *)
Definition set_ai_speaking (c : t) (call_id : string) (is_speaking : bool)
  : res t :=
  match _ensure_connection c with
  | Raised e => Raised e
  | Ok _ =>
      client_set c (redis_key call_id "is_ai_speaking")
                 (PStr (str_lower_bool is_speaking))
  end.
End Client.

(** [is_ai_speaking]: [value == "true"] *)
Definition is_ai_speaking (c : t) (call_id : string) : res bool :=
  match _ensure_connection c with
  | Raised e => Raised e
  | Ok _ =>
      Ok (bool_decide
            (strings c !! redis_key call_id "is_ai_speaking" = Some "true"))
  end.

(** [append_transcript_segment]: [RPUSH] of [json.dumps(segment)]; the
    server refuses a key that holds a string. *)
Definition append_transcript_segment (c : t) (call_id : string)
    (segment : pyval) : res t :=
  match _ensure_connection c with
  | Raised e => Raised e
  | Ok _ =>
      let k := redis_key call_id "transcript_history" in
      match strings c !! k with
      | Some _ => Raised "ResponseError"
      | None =>
          Ok {| connected := connected c;
                strings := strings c;
                lists := <[k := default [] (lists c !! k) ++ [segment]]>
                           (lists c) |}
      end
  end.

End RedisClient.


(** ** Coroutines as computations

    [M W A]: a coroutine over the world [W] that returns an [A] or raises, and
    leaves a world behind in both cases. *)

Definition M (W A : Type) : Type := W -> res A * W.

Definition ret {W A} (a : A) : M W A := fun w => (Ok a, w).

Definition raise {W A} (what : string) : M W A := fun w => (Raised what, w).

Definition bind {W A B} (m : M W A) (k : A -> M W B) : M W B :=
  fun w =>
    match m w with
    | (Ok a, w') => k a w'
    | (Raised e, w') => (Raised e, w')
    end.

(** [try: m  except Exception as e: h e] *)
Definition try_except {W A} (m : M W A) (h : string -> M W A) : M W A :=
  fun w =>
    match m w with
    | (Ok a, w') => (Ok a, w')
    | (Raised e, w') => h e w'
    end.

(** [try: m  finally: f] (an exception raised by [f] replaces the pending
    outcome). *)
Definition try_finally {W A} (m : M W A) (f : M W unit) : M W A :=
  fun w =>
    match m w with
    | (r, w') =>
        match f w' with
        | (Ok _, w'') => (r, w'')
        | (Raised e, w'') => (Raised e, w'')
        end
    end.

(** [let! x := m in k]: await [m], bind its result, go on with [k];
    [m >> k]: await [m] for its effect only. *)
Notation "'let!' x ':=' m 'in' k" := (bind m (fun x => k))
  (at level 10, x name, m at level 100, k at level 200).
Notation "m >> k" := (bind m (fun _ => k))
  (at level 190, right associativity).

(** ** Text helpers *)

(** Python's [str.isspace] on one ASCII character. *)
Definition is_space (a : ascii) : bool :=
  let n := nat_of_ascii a in
  (((9 <=? n) && (n <=? 13)) || ((28 <=? n) && (n <=? 32)))%nat.

Fixpoint lstrip (s : string) : string :=
  match s with
  | EmptyString => EmptyString
  | String a r => if is_space a then lstrip r else s
  end.

Fixpoint rstrip (s : string) : string :=
  match s with
  | EmptyString => EmptyString
  | String a r =>
      match rstrip r with
      | EmptyString => if is_space a then EmptyString else String a EmptyString
      | r' => String a r'
      end
  end.

(** [s.strip()] on ASCII text: of the characters [str.isspace] accepts, only
    the ASCII ones are removed.  A [str] with other white space (U+0085,
    U+00A0, U+2028, ...) is outside what [strip] computes; statements that
    depend on what is left of a text after [strip] assume [is_ascii]. *)
Definition strip (s : string) : string := rstrip (lstrip s).

(** Text whose characters are all ASCII ([s.isascii()]). *)
Fixpoint is_ascii (s : string) : bool :=
  match s with
  | EmptyString => true
  | String a r => (nat_of_ascii a <? 128)%nat && is_ascii r
  end.

(** Truth value of a [str]. *)
Definition str_truthy (s : string) : bool :=
  match s with EmptyString => false | _ => true end.

(** Truth value of an [Optional[str]]. *)
Definition opt_str_truthy (o : option string) : bool :=
  match o with Some s => str_truthy s | None => false end.

(** ** Recognition results

    The dictionaries the recognizer client puts on its result queue
    (src/src/services/deepgram_service.py, [process_audio_stream]); the
    handlers read them with [.get]. *)
Inductive dg_result :=
| DgTranscript (is_final : bool) (transcript : string) (duration : option Z)
| DgSpeechStarted
| DgError (message : string)
| DgClose.

(** [result.get("event")] *)
Definition get_event (r : dg_result) : option string :=
  match r with
  | DgTranscript _ _ _ => None
  | DgSpeechStarted => Some "speech_started"
  | DgError _ => Some "error"
  | DgClose => Some "close"
  end.

(** [result.get("is_final", False)] *)
Definition get_is_final (r : dg_result) : bool :=
  match r with DgTranscript f _ _ => f | _ => false end.

(** [result.get("transcript", "")] *)
Definition get_transcript (r : dg_result) : string :=
  match r with DgTranscript _ t _ => t | _ => "" end.

(** [result.get("duration", 0)] *)
Definition get_duration (r : dg_result) : Z :=
  match r with DgTranscript _ _ (Some d) => d | _ => 0%Z end.

Definition is_speech_started (r : dg_result) : bool :=
  bool_decide (get_event r = Some "speech_started").

(** ** Shared records *)

(** The fields of the agent configuration dictionary the handlers read. *)
Record agent_config := {
  system_prompt : option string;
  voice_id : option string;
  initial_greeting : option string;
}.

(** One entry of [conversation_memory]: [{"role": .., "parts": [{"text": ..}]}]. *)
Record turn := { role : string; parts_text : string }.

(** A row of [call_segments] as the handlers build it (the timestamp is left
    out: time is not modelled). *)
Record segment := {
  seg_call_id : string;
  sequence_number : option nat;
  speaker : string;
  text_content : string;
  asr_audio_seconds : option Z;
}.

(** What [send_message] returns: the keys the pipeline reads. *)
Record llm_response := {
  resp_text : option string;         (* [response.get("text")] *)
  resp_tool_calls : list string;     (* [response.get("tool_calls")] *)
}.

(** Frames written to the caller's socket. *)
Inductive frame :=
| Media (stream_sid : option string) (chunk : string)   (* base64 of [chunk] *)
| Mark                                                  (* [tts-chunk-<uuid>] *)
| RawAudio (chunk : string).

(** The row [list_records(.., order_by='sequence_number.desc', limit=1)]
    returns for a call: the row with the greatest sequence number, a row
    without a number sorting first (descending order puts NULL first). *)
Definition seq_before (a b : option nat) : bool :=
  match a, b with
  | None, _ => true
  | Some _, None => false
  | Some x, Some y => (y <=? x)%nat
  end.

Definition latest_segment (rows : list segment) (call_id : string)
  : option segment :=
  fold_left
    (fun best row =>
       if bool_decide (seg_call_id row = call_id) then
         match best with
         | None => Some row
         | Some b =>
             if seq_before (sequence_number b) (sequence_number row)
             then Some b else Some row
         end
       else best)
    rows None.

Module CoreAIPipeline.

Inductive effect :=
| EIsSpeaking (call_id : string) (answer : res bool)
| ESetCallData (call_id key : string) (v : pyval) (ok : bool)
| EAppendTranscript (call_id : string) (text : string) (ok : bool)
| EListRecords (call_id : string) (answer : res (option segment))
| ECreateSegment (seg : segment) (ok : bool)
| EStartChat (system_prompt : string) (history : list turn) (ok : bool)
| ESendMessage (message : string) (reply : res llm_response)
| ESynthesize (text : string) (voice : option string)
| EClosed (answer : bool)
| ESend (f : frame) (ok : bool).

Record world := {
  redis : RedisClient.t;            (* [self.redis_client] *)
  call_segments : list segment;     (* the durable table, oldest first *)
  trace : list effect;
}.

(** Answers of the collaborators that are outside the repository, by the
    instant of the call (the length of the trace when it is made). *)
Record env := {
  list_records_raises : nat -> bool;
  create_segment_raises : nat -> bool;
  start_chat_raises : nat -> bool;
  send_message_reply : nat -> res llm_response;
  tts_chunks : nat -> list string;
  ws_closed : nat -> bool;
  ws_send_raises : nat -> bool;
}.

Definition now (w : world) : nat := length (trace w).

Definition log (e : effect) (w : world) : world :=
  {| redis := redis w; call_segments := call_segments w;
     trace := trace w ++ [e] |}.

Section Pipeline.
Variable wire : pyval -> option string.
Variable E : env.

(** *** Collaborator calls *)

Definition redis_is_ai_speaking (call_id : string) : M world bool :=
  fun w =>
    let r := RedisClient.is_ai_speaking (redis w) call_id in
    (r, log (EIsSpeaking call_id r) w).

Definition redis_set_call_data (call_id key : string) (v : pyval)
  : M world unit :=
  fun w =>
    match RedisClient.set_call_data wire (redis w) call_id key v with
    | Ok c' =>
        (Ok tt, log (ESetCallData call_id key v true)
                    {| redis := c'; call_segments := call_segments w;
                       trace := trace w |})
    | Raised e => (Raised e, log (ESetCallData call_id key v false) w)
    end.

Definition redis_append_transcript_segment (call_id text : string)
  : M world unit :=
  fun w =>
    match RedisClient.append_transcript_segment (redis w) call_id (PStr text) with
    | Ok c' =>
        (Ok tt, log (EAppendTranscript call_id text true)
                    {| redis := c'; call_segments := call_segments w;
                       trace := trace w |})
    | Raised e => (Raised e, log (EAppendTranscript call_id text false) w)
    end.

(** [supabase_client.list_records('call_segments', call_id, desc, limit=1)] *)
Definition list_records (call_id : string) : M world (option segment) :=
  fun w =>
    let r :=
      if list_records_raises E (now w) then Raised "SinkError"
      else Ok (latest_segment (call_segments w) call_id) in
    (r, log (EListRecords call_id r) w).

(** [supabase_client.create_call_segment(row)] *)
Definition create_call_segment (row : segment) : M world unit :=
  fun w =>
    if create_segment_raises E (now w)
    then (Raised "SinkError", log (ECreateSegment row false) w)
    else (Ok tt, log (ECreateSegment row true)
                     {| redis := redis w;
                        call_segments := call_segments w ++ [row];
                        trace := trace w |}).

Definition start_chat (prompt : string) (history : list turn)
  : M world unit :=
  fun w =>
    if start_chat_raises E (now w)
    then (Raised "LLMError", log (EStartChat prompt history false) w)
    else (Ok tt, log (EStartChat prompt history true) w).

Definition send_message (message : string) : M world llm_response :=
  fun w =>
    let r := send_message_reply E (now w) in
    (r, log (ESendMessage message r) w).

(** [synthesize_speech_stream(text, voice_id=.., voice_settings=..)]: the
    chunks the stream will yield (the stream never raises: on a synthesis
    error it yields one silent chunk). *)
Definition synthesize_speech_stream (text : string) (voice : option string)
  : M world (list string) :=
  fun w => (Ok (tts_chunks E (now w)), log (ESynthesize text voice) w).

(** [websocket.closed] *)
Definition websocket_closed : M world bool :=
  fun w =>
    let b := ws_closed E (now w) in (Ok b, log (EClosed b) w).

(** [await websocket.send(..)] *)
Definition websocket_send (f : frame) : M world unit :=
  fun w =>
    if ws_send_raises E (now w)
    then (Raised "ConnectionClosed", log (ESend f false) w)
    else (Ok tt, log (ESend f true) w).

(** *** The pipeline *)

(** [_get_next_sequence] *)
Definition _get_next_sequence (call_id : string) : M world nat :=
  try_except
    (let! segments := list_records call_id in
     match segments with
     | Some row =>
         match sequence_number row with
         | Some n => ret (n + 1)%nat
         | None => raise "TypeError"
         end
     | None => ret 1%nat
     end)
    (fun _ => ret 1%nat).

(** [_log_user_message] *)
Definition _log_user_message (call_id transcript : string) (duration : Z)
  : M world unit :=
  try_except
    (let! seq := _get_next_sequence call_id in
     create_call_segment
       {| seg_call_id := call_id; sequence_number := Some seq;
          speaker := "user"; text_content := transcript;
          asr_audio_seconds := Some duration |} >>
     redis_append_transcript_segment call_id transcript)
    (fun e => raise e).

(** [_log_ai_message] *)
Definition _log_ai_message (call_id text : string) : M world unit :=
  try_except
    (let! seq := _get_next_sequence call_id in
     create_call_segment
       {| seg_call_id := call_id; sequence_number := Some seq;
          speaker := "ai"; text_content := text;
          asr_audio_seconds := None |} >>
     redis_append_transcript_segment call_id text)
    (fun e => raise e).

(** [_generate_ai_response] *)
Definition _generate_ai_response (call_id user_message : string)
    (ai_agent_config : agent_config) (conversation_memory : list turn)
  : M world (option string) :=
  try_except
    (let prompt :=
       default "You are a helpful AI assistant."
               (system_prompt ai_agent_config) in
     start_chat prompt (removelast conversation_memory) >>
     let! response := send_message user_message in
     if negb (bool_decide (resp_tool_calls response = [])) then
       ret (Some (default "I am sorry, I cannot perform that action yet."
                          (resp_text response)))
     else ret (Some (strip (default "" (resp_text response)))))
    (fun _ => ret None).

(** The [async for chunk in tts_stream] loop of [_stream_tts_response]. *)
Fixpoint stream_chunks (stream_sid : option string) (chunks : list string)
  : M world unit :=
  match chunks with
  | [] => ret tt
  | chunk :: rest =>
      let! closed := websocket_closed in
      if closed then ret tt
      else
        websocket_send (Media stream_sid chunk) >>
        websocket_send Mark >>
        stream_chunks stream_sid rest
  end.

(** [_stream_tts_response] *)
Definition _stream_tts_response (call_id text : string)
    (ai_agent_config : agent_config) (stream_sid : option string)
  : M world unit :=
  try_except
    (redis_set_call_data call_id "is_ai_speaking" (PBool true) >>
     let! tts_stream :=
       synthesize_speech_stream text (voice_id ai_agent_config) in
     stream_chunks stream_sid tts_stream >>
     _log_ai_message call_id text >>
     redis_set_call_data call_id "is_ai_speaking" (PBool false))
    (fun e =>
       redis_set_call_data call_id "is_ai_speaking" (PBool false) >>
       raise e).

(** One iteration of [async for result in deepgram_stream] in
    [process_audio_stream]. *)
Definition process_result (call_id : string)
    (ai_agent_config : agent_config) (conversation_memory : list turn)
    (stream_sid : option string) (result : dg_result) : M world unit :=
  let after_barge_in_check :=
    if get_is_final result then
      let user_transcript := strip (get_transcript result) in
      if negb (str_truthy user_transcript) then ret tt
      else
        _log_user_message call_id user_transcript (get_duration result) >>
        let! ai_response :=
          _generate_ai_response call_id user_transcript ai_agent_config
                                conversation_memory in
        if opt_str_truthy ai_response then
          _stream_tts_response call_id (default "" ai_response)
                               ai_agent_config stream_sid
        else ret tt
    else ret tt in
  if is_speech_started result then
    let! is_ai_speaking := redis_is_ai_speaking call_id in
    if is_ai_speaking then
      redis_set_call_data call_id "is_ai_speaking" (PBool false)
    else after_barge_in_check
  else after_barge_in_check.

(** The loop of [process_audio_stream] over the results the recognizer
    delivers, under the handler's [try .. except Exception: raise]. *)
Fixpoint process_results (call_id : string)
    (ai_agent_config : agent_config) (conversation_memory : list turn)
    (stream_sid : option string) (results : list dg_result)
  : M world unit :=
  match results with
  | [] => ret tt
  | result :: rest =>
      process_result call_id ai_agent_config conversation_memory
                     stream_sid result >>
      process_results call_id ai_agent_config conversation_memory
                      stream_sid rest
  end.

Definition process_audio_stream (call_id : string)
    (ai_agent_config : agent_config) (conversation_memory : list turn)
    (stream_sid : option string) (results : list dg_result)
  : M world unit :=
  try_except
    (process_results call_id ai_agent_config conversation_memory
                     stream_sid results)
    (fun e => raise e).

End Pipeline.

Definition world0 : world :=
  {| redis := RedisClient.empty; call_segments := []; trace := [] |}.

End CoreAIPipeline.

(** ** The language-model client's one-shot entry point
    (src/src/services/gemini_service.py, [generate_response]) *)
Module GeminiService.

(** What [generate_content_async] does. *)
Inductive genai_outcome :=
| Generated (text : string)
| BlockedPromptException
| StopCandidateException
| OtherException.

Definition refusal_text : string :=
  "I'm sorry, I cannot process that request due to content policy. Can I help with something else?".
Definition rephrase_text : string :=
  "I'm sorry, I'm having trouble understanding. Could you please rephrase?".
Definition internal_error_text : string :=
  "I apologize, I encountered an internal error with my brain. Please try again later.".

(** [generate_response]: every failure is answered with a canned
    utterance. *)
Definition generate_response (o : genai_outcome) : option string :=
  match o with
  | Generated text => Some text
  | BlockedPromptException => Some refusal_text
  | StopCandidateException => Some rephrase_text
  | OtherException => Some internal_error_text
  end.

End GeminiService.

(** ** The directly hosted controller (src/ai_orchestrator.py)

    [_handle_signalwire_media_stream] keeps the playback coroutine in an
    [asyncio] task; the handler and the tasks interleave at their awaits.  A
    run is a schedule: the handler takes the next recognition result, or a
    task takes its next step. *)
Module Orchestrator.

Inductive task_status :=
| Running            (* created, [done()] is false *)
| CancelRequested    (* [cancel()] called, not yet delivered *)
| Finished.          (* the coroutine has returned *)

Record task := {
  remaining : list string;     (* chunks the stream has yet to yield *)
  status : task_status;
}.

Inductive effect :=
| ESetCallData (call_id key : string) (v : pyval)
| EAppendTranscript (call_id speaker text : string)
| EGetMemory (call_id : string)
| ESetMemory (call_id last_user_input last_ai_response : string)
| EGenerate (prompt : string) (o : GeminiService.genai_outcome)
| ESynthesize (text : string) (voice : option string)
| ECreateTask (tid : nat)
| ECancel (tid : nat)
| EClosed (answer : bool)
| ESend (by_task : option nat) (f : frame)
| EStoreRaised (call_id : string).

Record world := {
  current_tts_task : option nat;   (* the handler's [current_tts_task] *)
  tasks : list task;               (* every task created, by identifier *)
  barge_ins_total : nat;           (* [BARGE_INS_TOTAL] *)
  trace : list effect;
}.

Record env := {
  store_raises : nat -> bool;      (* a store call raises *)
  generate : nat -> GeminiService.genai_outcome;
  tts_chunks : nat -> list string;
  ws_closed : nat -> bool;
  ws_send_raises : nat -> bool;
}.

Definition now (w : world) : nat := length (trace w).

Definition log (e : effect) (w : world) : world :=
  {| current_tts_task := current_tts_task w; tasks := tasks w;
     barge_ins_total := barge_ins_total w; trace := trace w ++ [e] |}.

(** [task.done()] *)
Definition done (w : world) (tid : nat) : bool :=
  match tasks w !! tid with
  | Some t => match status t with Finished => true | _ => false end
  | None => true
  end.

(** [current_tts_task and not current_tts_task.done()] *)
Definition live_handle (w : world) : option nat :=
  match current_tts_task w with
  | Some tid => if done w tid then None else Some tid
  | None => None
  end.

(** The tasks that are alive: created and not finished. *)
Definition is_alive (t : task) : bool :=
  match status t with Finished => false | _ => true end.

Definition alive (w : world) : list task :=
  List.filter is_alive (tasks w).

(** [task.cancel()]: a request; a finished task ignores it. *)
Definition request_cancel (t : task) : task :=
  match status t with
  | Finished => t
  | _ => {| remaining := remaining t; status := CancelRequested |}
  end.

Definition cancel (tid : nat) (w : world) : world :=
  {| current_tts_task := current_tts_task w;
     tasks := alter request_cancel tid (tasks w);
     barge_ins_total := barge_ins_total w;
     trace := trace w ++ [ECancel tid] |}.

Section Handler.
Variable E : env.
Variable call_id : string.
Variable agent : agent_config.
Variable stream_sid : option string.

(** A store call of the handler: it returns, or it raises. *)
Definition store_call (e : effect) : M world unit :=
  fun w =>
    if store_raises E (now w)
    then (Raised "StoreError", log (EStoreRaised call_id) w)
    else (Ok tt, log e w).

(** [await redis_client_instance.get_call_data(call_id, 'is_ai_speaking')].
    The client this module instantiates is [services.RedisClient], whose
    [get_call_data(self, call_id)] takes the call identifier only: the second
    argument cannot be bound, and the call raises [TypeError] before the
    store is reached. *)
Definition get_flag : M world bool := raise "TypeError".

Definition gemini_generate_response (prompt : string)
  : M world (option string) :=
  fun w =>
    let o := generate E (now w) in
    (Ok (GeminiService.generate_response o), log (EGenerate prompt o) w).

(** [asyncio.create_task(_tts_playback_coroutine())]: the new task starts
    with the whole stream ahead of it and becomes the handler's handle. *)
Definition create_playback_task (response : string) : M world unit :=
  fun w =>
    let tid := length (tasks w) in
    (Ok tt,
     {| current_tts_task := Some tid;
        tasks := tasks w ++ [{| remaining := tts_chunks E (now w);
                                status := Running |}];
        barge_ins_total := barge_ins_total w;
        trace := trace w ++ [ECreateTask tid] |}).

(** The barge-in test at the head of the loop body. *)
Definition barge_in_check (result : dg_result) : M world unit :=
  if is_speech_started result then
    let! is_ai_speaking := get_flag in
    fun w =>
      match (if is_ai_speaking then live_handle w else None) with
      | Some tid =>
          let w1 := cancel tid w in
          (Ok tt,
           {| current_tts_task := current_tts_task w1; tasks := tasks w1;
              barge_ins_total := S (barge_ins_total w1);
              trace := trace w1 |})
      | None => (Ok tt, w)
      end
  else ret tt.

(** The inline fallback playback of the [error] branch. *)
Fixpoint stream_fallback (chunks : list string) : M world unit :=
  match chunks with
  | [] => ret tt
  | chunk :: rest =>
      fun w =>
        let closed := ws_closed E (now w) in
        let w1 := log (EClosed closed) w in
        if closed then (Ok tt, w1)
        else if ws_send_raises E (now w1)
             then (Raised "ConnectionClosed", w1)
             else stream_fallback rest
                    (log (ESend None (Media stream_sid chunk)) w1)
  end.

Definition fallback_text : string :=
  "I'm having trouble with my audio connection. Can you try speaking clearly again?".

(** One iteration of [async for dg_result in deepgram_stream_generator]. *)
Definition handle_result (result : dg_result) : M world unit :=
  barge_in_check result >>
  if get_is_final result then
    let transcript := get_transcript result in
    if str_truthy transcript then
      store_call (EAppendTranscript call_id "user" transcript) >>
      store_call (EGetMemory call_id) >>
      let! response := gemini_generate_response transcript in
      if opt_str_truthy response then
        let response := default "" response in
        store_call (ESetMemory call_id transcript response) >>
        store_call (ESetCallData call_id "is_ai_speaking" (PBool true)) >>
        create_playback_task response >>
        store_call (EAppendTranscript call_id "ai" response)
      else ret tt
    else ret tt
  else if bool_decide (get_event result = Some "error") then
    store_call (ESetCallData call_id "is_ai_speaking" (PBool true)) >>
    (fun w => stream_fallback (tts_chunks E (now w))
                (log (ESynthesize fallback_text (voice_id agent)) w)) >>
    store_call (ESetCallData call_id "is_ai_speaking" (PBool false))
  else ret tt.

(** *** The playback coroutine, one scheduling step at a time *)

Definition set_task (tid : nat) (t : task) (w : world) : world :=
  {| current_tts_task := current_tts_task w;
     tasks := <[tid := t]> (tasks w);
     barge_ins_total := barge_ins_total w; trace := trace w |}.

(** The [finally] block: clear the stored flag, then
    [current_tts_task = None], then the task is done. *)
Definition task_finally (tid : nat) (w : world) : world :=
  let w1 :=
    if store_raises E (now w) then log (EStoreRaised call_id) w
    else log (ESetCallData call_id "is_ai_speaking" (PBool false)) w in
  {| current_tts_task :=
       if store_raises E (now w) then current_tts_task w1 else None;
     tasks := alter (fun t => {| remaining := remaining t;
                                 status := Finished |}) tid (tasks w1);
     barge_ins_total := barge_ins_total w1; trace := trace w1 |}.

(** The task runs until its next await returns: one chunk is sent, or the
    stream ends, or a pending cancellation is delivered. *)
Definition task_step (tid : nat) (w : world) : world :=
  match tasks w !! tid with
  | None => w
  | Some t =>
      match status t with
      | Finished => w
      | CancelRequested => task_finally tid w
      | Running =>
          match remaining t with
          | [] => task_finally tid w
          | chunk :: rest =>
              let closed := ws_closed E (now w) in
              let w1 := log (EClosed closed) w in
              if closed then task_finally tid w1
              else if ws_send_raises E (now w1) then task_finally tid w1
              else
                set_task tid {| remaining := rest; status := Running |}
                  (log (ESend (Some tid) Mark)
                     (log (ESend (Some tid) (Media stream_sid chunk)) w1))
          end
      end
  end.

Inductive sched :=
| Deliver (result : dg_result)    (* the handler takes a result *)
| Step (tid : nat).               (* a playback task moves *)

(** A run of the handler's loop under a schedule; it stops when the loop
    body raises. *)
Fixpoint run (s : list sched) (w : world) : res unit * world :=
  match s with
  | [] => (Ok tt, w)
  | Deliver result :: rest =>
      match handle_result result w with
      | (Ok _, w') => run rest w'
      | (Raised e, w') => (Raised e, w')
      end
  | Step tid :: rest => run rest (task_step tid w)
  end.

End Handler.

Definition world0 : world :=
  {| current_tts_task := None; tasks := []; barge_ins_total := 0;
     trace := [] |}.

(** *** Outbound call initiation ([trigger_outbound_call]) *)

(** [call_data], the dictionary the endpoint builds. *)
Record call_row := {
  row_agent_id : string;
  row_to_number : string;
  row_from_number : option string;
  row_direction : string;
  row_status : string;
}.

(** What the database client would return: the stored row, and its [id]
    when the row has one ([call_record["id"]] raises [KeyError] otherwise). *)
Record call_record := { record_id : option string; record_row : call_row }.

Inductive http_response :=
| Success (call_id : string)            (* [{"status": "success", ..}] *)
| HTTPException (status_code : nat).

Inductive call_effect :=
| ECreateCallRecord (row : call_row)
| EInitiateCall (to_number : string) (from_number : option string)
                (call_id : string).

Record outbound_world := {
  calls : list call_row;              (* the durable [calls] table *)
  call_trace : list call_effect;      (* calls that reached a collaborator *)
}.

(** [supabase_client_instance.create_call_record(call_data)].  The client
    this module instantiates is [services.SupabaseClient], which defines
    [create_call] and no [create_call_record]: the attribute lookup raises
    [AttributeError] and the database is not reached. *)
Definition create_call_record (call_data : call_row)
  : M outbound_world call_record :=
  raise "AttributeError".

(** [signalwire_client_instance.initiate_call(to_number=.., from_number=..,
    call_id=..)].  [SignalWireService] defines [make_call] and no
    [initiate_call]: [AttributeError], and the provider is not reached. *)
Definition initiate_call (to_number : string) (from_number : option string)
    (call_id : string) : M outbound_world unit :=
  raise "AttributeError".

(** [trigger_outbound_call]: the body under [try], and
    [except Exception: raise HTTPException(status_code=500, ..)]. *)
Definition trigger_outbound_call
    (to_number agent_id : string) (from_number : option string)
    (w : outbound_world) : http_response * outbound_world :=
  let call_data :=
    {| row_agent_id := agent_id; row_to_number := to_number;
       row_from_number := from_number; row_direction := "outbound";
       row_status := "initiated" |} in
  match (let! call_record := create_call_record call_data in
         match record_id call_record with
         | None => raise "KeyError"
         | Some id =>
             initiate_call to_number from_number id >>
             ret (Success id)
         end) w with
  | (Ok response, w') => (response, w')
  | (Raised _, w') => (HTTPException 500, w')
  end.

End Orchestrator.

(** ** The telephony backend (src/src/ai_orchestrator.py) *)
Module AIOrchestrator.

Inductive effect :=
| EGetFlag (call_id : string) (truthy : bool)
| ESetCallData (call_id key : string) (v : pyval) (ok : bool)
| ESetMemory (call_id : string) (memory : list turn) (ok : bool)
| ECreateSegment (seg : segment) (ok : bool)
| EStartChat (system_prompt : string) (history : list turn) (ok : bool)
| ESendMessage (message : string) (reply : res (option llm_response))
| ESynthesize (text : string) (voice : option string)
| EClosed (answer : bool)
| ESend (f : frame) (ok : bool)
| ECancel (tid : nat).

Record world := {
  tts_task : option nat;               (* the handler's [tts_task] *)
  conversation_memory : list turn;     (* the list object, appended in place *)
  trace : list effect;
}.

Record env := {
  flag_truthy : nat -> bool;           (* [get_call_data(.., 'is_ai_speaking') or False] *)
  store_raises : nat -> bool;
  create_segment_raises : nat -> bool;
  start_chat_raises : nat -> bool;
  send_message_reply : nat -> res (option llm_response);
  tts_chunks : nat -> list string;
  ws_closed : nat -> bool;
  ws_send_raises : nat -> bool;
  task_done : nat -> bool;             (* [tts_task.done()] *)
}.

Definition now (w : world) : nat := length (trace w).

Definition log (e : effect) (w : world) : world :=
  {| tts_task := tts_task w; conversation_memory := conversation_memory w;
     trace := trace w ++ [e] |}.

(** What the loop body asks of the enclosing [async for]. *)
Inductive loop_ctl := Next | Break.

Section Handler.
Variable E : env.
Variable call_id : string.
Variable websocket_id : string.      (* [websocket.id] *)
Variable agent : agent_config.

Definition get_flag : M world bool :=
  fun w =>
    if store_raises E (now w)
    then (Raised "StoreError", log (EGetFlag call_id false) w)
    else let b := flag_truthy E (now w) in
         (Ok b, log (EGetFlag call_id b) w).

Definition redis_set_call_data (cid key : string) (v : pyval)
  : M world unit :=
  fun w =>
    if store_raises E (now w)
    then (Raised "StoreError", log (ESetCallData cid key v false) w)
    else (Ok tt, log (ESetCallData cid key v true) w).

(** [set_call_data(call_id, 'conversation_memory', conversation_memory)] *)
Definition redis_set_memory : M world unit :=
  fun w =>
    if store_raises E (now w)
    then (Raised "StoreError",
          log (ESetMemory call_id (conversation_memory w) false) w)
    else (Ok tt, log (ESetMemory call_id (conversation_memory w) true) w).

Definition create_call_segment (row : segment) : M world unit :=
  fun w =>
    if create_segment_raises E (now w)
    then (Raised "SinkError", log (ECreateSegment row false) w)
    else (Ok tt, log (ECreateSegment row true) w).

Definition start_chat (prompt : string) (history : list turn)
  : M world unit :=
  fun w =>
    if start_chat_raises E (now w)
    then (Raised "LLMError", log (EStartChat prompt history false) w)
    else (Ok tt, log (EStartChat prompt history true) w).

Definition send_message (message : string)
  : M world (option llm_response) :=
  fun w =>
    let r := send_message_reply E (now w) in
    (r, log (ESendMessage message r) w).

Definition memory_append (t : turn) : M world unit :=
  fun w =>
    (Ok tt, {| tts_task := tts_task w;
               conversation_memory := conversation_memory w ++ [t];
               trace := trace w |}).

Definition memory : M world (list turn) :=
  fun w => (Ok (conversation_memory w), w).

(** [_log_user_message]: a failed write is logged and swallowed. *)
Definition _log_user_message (text : string) (duration : Z)
  : M world unit :=
  try_except
    (create_call_segment
       {| seg_call_id := call_id; sequence_number := None;
          speaker := "user"; text_content := text;
          asr_audio_seconds := Some duration |})
    (fun _ => ret tt).

(** [_log_ai_message] *)
Definition _log_ai_message (text : string) : M world unit :=
  try_except
    (create_call_segment
       {| seg_call_id := call_id; sequence_number := None;
          speaker := "ai"; text_content := text;
          asr_audio_seconds := None |})
    (fun _ => ret tt).

(** [_get_ai_response] *)
Definition _get_ai_response (user_message : string)
  : M world (option string) :=
  try_except
    (memory_append {| role := "user"; parts_text := user_message |} >>
     let! mem := memory in
     start_chat
       (default "You are a helpful AI assistant." (system_prompt agent))
       (removelast mem) >>
     let! response := send_message user_message in
     match response with
     | Some r =>
         if opt_str_truthy (resp_text r) then
           let ai_message := strip (default "" (resp_text r)) in
           memory_append {| role := "model"; parts_text := ai_message |} >>
           redis_set_memory >>
           ret (Some ai_message)
         else ret None
     | None => ret None
     end)
    (fun _ => ret None).

Fixpoint send_chunks (chunks : list string) : M world unit :=
  match chunks with
  | [] => ret tt
  | chunk :: rest =>
      fun w =>
        let closed := ws_closed E (now w) in
        let w1 := log (EClosed closed) w in
        if closed then (Ok tt, w1)
        else
          let f := Media (Some websocket_id) chunk in
          if ws_send_raises E (now w1)
          then (Raised "ConnectionClosed", log (ESend f false) w1)
          else send_chunks rest (log (ESend f true) w1)
  end.

(** [_send_tts_response]: the flag is keyed by [websocket.id]. *)
Definition _send_tts_response (text : string) : M world unit :=
  try_finally
    (try_except
       (redis_set_call_data websocket_id "is_ai_speaking" (PBool true) >>
        (fun w => send_chunks (tts_chunks E (now w))
                    (log (ESynthesize text (voice_id agent)) w)))
       (fun _ => ret tt))
    (redis_set_call_data websocket_id "is_ai_speaking" (PBool false)).

(** [tts_task and not tts_task.done()] *)
Definition live_task (w : world) : option nat :=
  match tts_task w with
  | Some tid => if task_done E tid then None else Some tid
  | None => None
  end.

(** One iteration of [async for dg_result in deepgram_stream]. *)
Definition handle_result (result : dg_result) : M world loop_ctl :=
  let transcription : M world loop_ctl :=
    if get_is_final result then
      let transcript := strip (get_transcript result) in
      if str_truthy transcript then
        _log_user_message transcript (get_duration result) >>
        let! ai_response := _get_ai_response transcript in
        if opt_str_truthy ai_response then
          _send_tts_response (default "" ai_response) >>
          _log_ai_message (default "" ai_response) >>
          ret Next
        else ret Next
      else ret Next
    else ret Next in
  if is_speech_started result then
    let! is_ai_speaking := get_flag in
    fun w =>
      match (if is_ai_speaking then live_task w else None) with
      | Some tid =>
          (redis_set_call_data call_id "is_ai_speaking" (PBool false) >>
           ret Break) (log (ECancel tid) w)
      | None => transcription w
      end
  else transcription.

End Handler.

(** *** The call bring-up webhook ([signalwire_webhook_handler])

    The endpoint is a function of the module, and the clients it calls are
    the ones the module instantiates itself: [SupabaseClient]
    (src/src/supabase_client.py) and [RedisClient] (src/src/redis_client.py).
    A call whose arguments the method's signature cannot bind raises
    [TypeError] before the client does anything; what a call that the
    signature accepts answers is left to the environment. *)

(** The fields of the request body the handler reads with [payload.get]. *)
Record payload := {
  p_call_id : option string;
  p_from_number : option string;
  p_to_number : option string;
  p_media_url : option string;
  p_state : option string;
  p_direction : option string;
  p_client_state : option string;
}.

(** [await request.json()]: the body is not JSON (the call raises), it is
    JSON but not an object (the first [payload.get] raises
    [AttributeError]), or it is an object. *)
Inductive request_json :=
| NotJSON
| NotAnObject
| Object (p : payload).

(** [json.loads(payload["client_state"])] followed by
    [.get("ai_agent_id")]: the text is not JSON ([JSONDecodeError], which
    the handler catches), it decodes to an object, or anything else (a value
    without [.get], a [client_state] that is not text), which raises past the
    inner handler. *)
Inductive client_state_parse :=
| JSONDecodeError
| ClientState (ai_agent_id : option string)
| NotADict.

Record phone_number_record := { pn_ai_agent_id : option string }.

(** The agent row: [ag_id] is [ai_agent_config['id']], absent when the row
    has no such key. *)
Record agent_row := { ag_id : option string; ag_is_active : bool }.

(** The body of a response: [Message m] is [json.dumps({"message": m})]. *)
Inductive body := NoBody | Message (m : string).

Inductive webhook_response :=
| Response (status_code : nat) (content : body)
| ReturnedHTTPException (status_code : nat).   (* [return HTTPException(..)] *)

Inductive webhook_effect :=
| WGetPhoneNumber (number : option string) (r : res (option phone_number_record))
| WParseClientState (r : client_state_parse)
| WGetAgent (id : string) (r : res (option agent_row))
| WGetCallRecord (r : res bool)
| WCreateCallRecord (ok : bool)
| WUpdateCallRecord (new_status : string) (ok : bool)
| WSetCallData (key : string) (ok : bool)
| WCreateMediaTask (media_url : string).

Record webhook_env := {
  parse_client_state : client_state_parse;
  get_ai_agent : res (option agent_row);
  get_call_record : res bool;             (* a record exists *)
  update_call_record_raises : bool;
}.

Definition wlog (e : webhook_effect) : M (list webhook_effect) unit :=
  fun t => (Ok tt, t ++ [e]).

Definition wcall {A} (r : res A) (e : webhook_effect)
  : M (list webhook_effect) A :=
  fun t => (r, t ++ [e]).

Definition guarded (raises : bool) (e_ok e_fail : webhook_effect)
  : M (list webhook_effect) unit :=
  if raises then wcall (Raised "Exception") e_fail else wcall (Ok tt) e_ok.

(** [supabase_client_instance.get_phone_number(to_number,
    by_column='number')]: both definitions of [get_phone_number] take the
    number only; the keyword cannot be bound and the call raises
    [TypeError]. *)
Definition get_phone_number_by_column (to_number : option string)
  : M (list webhook_effect) (option phone_number_record) :=
  wcall (Raised "TypeError") (WGetPhoneNumber to_number (Raised "TypeError")).

(** [supabase_client_instance.create_call_record(initial_call_data)]: the
    definition in force takes [call_id, from_number, to_number, agent_id];
    one dictionary leaves three of them unbound and the call raises
    [TypeError]. *)
Definition create_call_record_from_dict : M (list webhook_effect) unit :=
  wcall (Raised "TypeError") (WCreateCallRecord false).

(** [redis_client_instance.set_call_data(call_id, key, value,
    expire_seconds=..)]: [RedisClient.set_call_data] names that parameter
    [expiry]; the keyword cannot be bound and the call raises [TypeError]. *)
Definition set_call_data_expire_seconds (key : string)
  : M (list webhook_effect) unit :=
  wcall (Raised "TypeError") (WSetCallData key false).

Definition no_agent_found : webhook_response :=
  Response 200 (Message "No agent found").

(** The handler body under its [try], once the body is an object; [Ok r] is
    [return r]. *)
Definition webhook_body (WE : webhook_env) (p : payload)
  : M (list webhook_effect) webhook_response :=
  if bool_decide (p_state p = Some "answered") && opt_str_truthy (p_media_url p)
  then
    (* the agent for the call: [inl] is an early [return] *)
    let! selected :=
      (if bool_decide (p_direction p = Some "inbound") then
         let! phone_number_record :=
           get_phone_number_by_column (p_to_number p) in
         match phone_number_record with
         | Some r =>
             if opt_str_truthy (pn_ai_agent_id r)
             then ret (inr (pn_ai_agent_id r))
             else ret (inl no_agent_found)
         | None => ret (inl no_agent_found)
         end
       else if bool_decide (p_direction p = Some "outbound")
               && opt_str_truthy (p_client_state p) then
         match parse_client_state WE with
         | JSONDecodeError =>
             wlog (WParseClientState JSONDecodeError) >> ret (inr None)
         | ClientState a =>
             wlog (WParseClientState (ClientState a)) >> ret (inr a)
         | NotADict =>
             wcall (Raised "AttributeError") (WParseClientState NotADict)
         end
       else ret (inr None)) in
    match selected with
    | inl early => ret early
    | inr ai_agent_id =>
        if negb (opt_str_truthy ai_agent_id) then
          ret (Response 200 (Message "Agent not determined"))
        else
          let id := default "" ai_agent_id in
          let! ai_agent_config :=
            wcall (get_ai_agent WE) (WGetAgent id (get_ai_agent WE)) in
          match ai_agent_config with
          | Some a =>
              if ag_is_active a then
                (* [initial_call_data] reads [ai_agent_config['id']] *)
                match ag_id a with
                | None => raise "KeyError"
                | Some _ =>
                    let! existing_call :=
                      wcall (get_call_record WE)
                            (WGetCallRecord (get_call_record WE)) in
                    (if existing_call
                     then guarded (update_call_record_raises WE)
                            (WUpdateCallRecord "in-progress" true)
                            (WUpdateCallRecord "in-progress" false)
                     else create_call_record_from_dict) >>
                    set_call_data_expire_seconds "agent_config" >>
                    set_call_data_expire_seconds "conversation_memory" >>
                    set_call_data_expire_seconds "is_ai_speaking" >>
                    set_call_data_expire_seconds "current_status" >>
                    wlog (WCreateMediaTask (default "" (p_media_url p))) >>
                    ret (Response 200 NoBody)
                end
              else ret (Response 200 (Message "Agent not found or inactive"))
          | None => ret (Response 200 (Message "Agent not found or inactive"))
          end
    end
  else if bool_decide (p_state p = Some "ended") then
    guarded (update_call_record_raises WE)
      (WUpdateCallRecord "ended" true) (WUpdateCallRecord "ended" false) >>
    ret (Response 200 NoBody)
  else ret (Response 200 NoBody).

(** [signalwire_webhook_handler]: what the endpoint returns and what it did.
    Every exception under the [try] ends in [return HTTPException(500)]. *)
Definition signalwire_webhook_handler (WE : webhook_env)
    (request : request_json) : webhook_response * list webhook_effect :=
  match request with
  | NotJSON | NotAnObject => (ReturnedHTTPException 500, [])
  | Object p =>
      match webhook_body WE p [] with
      | (Ok r, t) => (r, t)
      | (Raised _, t) => (ReturnedHTTPException 500, t)
      end
  end.

End AIOrchestrator.

(** ** The browser backend's greeting (src/src/server.py) *)
Module WebSocketServer.
Import CoreAIPipeline.

Section Server.
Variable wire : pyval -> option string.
Variable E : env.


(** The [async for chunk in tts_stream] loop of [_send_initial_greeting]. *)
Fixpoint send_greeting_chunks (chunks : list string) : M world unit :=
  match chunks with
  | [] => ret tt
  | chunk :: rest =>
      let! closed := websocket_closed E in
      if closed then ret tt
      else websocket_send E (RawAudio chunk) >> send_greeting_chunks rest
  end.

End Server.
End WebSocketServer.

(** ** Further operations of the Session Store client
    (src/src/redis_client.py) *)
Module RedisOps.
Import RedisClient.

Section Reads.
(** [json.loads], from the standard library: [None] is [JSONDecodeError]. *)
Variable json_loads : string -> option pyval.

(** [get_call_data]: a missing key and an empty value give [None]; text that
    is not JSON comes back as the text itself.  [GET] on a key that holds a
    list is refused by the server. *)
Definition get_call_data (c : t) (call_id key : string) : res pyval :=
  match _ensure_connection c with
  | Raised e => Raised e
  | Ok _ =>
      let redis_key := redis_key call_id key in
      match lists c !! redis_key with
      | Some _ => Raised "ResponseError"
      | None =>
          match strings c !! redis_key with
          | Some value =>
              if str_truthy value then
                match json_loads value with
                | Some v => Ok v
                | None => Ok (PStr value)
                end
              else Ok PNone
          | None => Ok PNone
          end
      end
  end.
End Reads.

(** [get_full_transcript]: [LRANGE key 0 -1], each element decoded (an element
    of a list key stands for its [json.dumps] text, so decoding gives the
    element). *)
Definition get_full_transcript (c : t) (call_id : string)
  : res (list pyval) :=
  match _ensure_connection c with
  | Raised e => Raised e
  | Ok _ =>
      let redis_key := redis_key call_id "transcript_history" in
      match strings c !! redis_key with
      | Some _ => Raised "ResponseError"
      | None => Ok (default [] (lists c !! redis_key))
      end
  end.

Section Keys.
(** The server's [KEYS] pattern match: [glob pattern key]. *)
Variable glob : string -> string -> bool.

(** [f"call:{call_id}:*"] *)
Definition call_pattern (call_id : string) : string :=
  ("call:" ++ call_id ++ ":*")%string.

(** [clear_call_cache]: every key that matches the pattern is deleted. *)
Definition clear_call_cache (c : t) (call_id : string) : res t :=
  match _ensure_connection c with
  | Raised e => Raised e
  | Ok _ =>
      let pattern := call_pattern call_id in
      Ok {| connected := connected c;
            strings := filter (fun kv => glob pattern kv.1 = false) (strings c);
            lists := filter (fun kv => glob pattern kv.1 = false) (lists c) |}
  end.
End Keys.

(** A pattern of literal characters closed by one star: the keys that start
    with the literal part. *)
Fixpoint glob_prefix (pattern key : string) : bool :=
  match pattern with
  | EmptyString => match key with EmptyString => true | _ => false end
  | String p EmptyString =>
      if Ascii.eqb p "*" then true
      else match key with
           | String k EmptyString => Ascii.eqb p k
           | _ => false
           end
  | String p rest =>
      match key with
      | String k key' => Ascii.eqb p k && glob_prefix rest key'
      | EmptyString => false
      end
  end.

(** *** The sliding-window rate limit ([set_rate_limit])

    The sorted set under the key holds one member per request,
    [str(timestamp)] scored by the timestamp, so it is the set of its scores.
    [datetime.utcnow()] has microsecond resolution: a timestamp is a number of
    microseconds. *)
Definition micro (seconds : Z) : Z := (seconds * 1000000)%Z.

(** [ZREMRANGEBYSCORE key 0 max] *)
Definition zremrangebyscore (zs : gset Z) (lo hi : Z) : gset Z :=
  filter (fun s => ~ (lo <= s <= hi)%Z) zs.

(** [set_rate_limit(key, limit, window)] at the instant [now], on the sorted
    set of the key: the answer and the set left behind. *)
Definition set_rate_limit (zs : gset Z) (limit window now : Z)
  : bool * gset Z :=
  let window_start := (now - micro window)%Z in
  let zs1 := zremrangebyscore zs 0 window_start in
  let zs2 := {[ now ]} ∪ zs1 in
  (bool_decide (Z.of_nat (size zs2) <= limit)%Z, zs2).

End RedisOps.

(** * Theorems *)

(** ** Session Store: the speaking flag through the store client *)

Lemma redis_key_flag_lookup (m : gmap string string) k w :
  bool_decide (<[k := w]> m !! k = Some "true") = bool_decide (w = "true").
Proof.
  rewrite lookup_insert_eq.
  apply bool_decide_ext. split; congruence.
Qed.

(** The dedicated writer [set_ai_speaking] stores the lower-case text, and the
    barge-in read [is_ai_speaking] observes the written value. *)
Lemma set_ai_speaking_round_trip wire c call_id v :
  RedisClient.connected c = true ->
  exists c', RedisClient.set_ai_speaking wire c call_id v = Ok c' /\
             RedisClient.is_ai_speaking c' call_id = Ok v.
Proof.
  intros Hc.
  unfold RedisClient.set_ai_speaking, RedisClient._ensure_connection.
  rewrite Hc. cbn [RedisClient.client_set RedisClient.encode].
  eexists; split; [reflexivity|].
  unfold RedisClient.is_ai_speaking, RedisClient._ensure_connection.
  cbn [RedisClient.connected RedisClient.strings]. rewrite Hc.
  rewrite redis_key_flag_lookup. f_equal.
  destruct v; reflexivity.
Qed.


(** C6 (evaluation at the failing input).  Writing the speaking flag [True]
    with [set_call_data] on a connected client, as the pipeline does, is never
    observed as true by [is_ai_speaking]: with the library that refuses a
    [bool] the write raises and the store is unchanged, and with the library
    that sends [str(value)] the store holds "True" and the read answers
    false. *)
Theorem C6_set_call_data_true_not_observed (c : RedisClient.t) (call_id : string) :
  RedisClient.connected c = true ->
  RedisClient.set_call_data wire_strict c call_id "is_ai_speaking" (PBool true)
    = Raised "DataError"
  /\ exists c',
       RedisClient.set_call_data wire_str c call_id "is_ai_speaking" (PBool true)
         = Ok c'
       /\ RedisClient.strings c' !! RedisClient.redis_key call_id "is_ai_speaking"
          = Some "True"
       /\ RedisClient.is_ai_speaking c' call_id = Ok false.
Proof.
  intros Hc. split.
  - unfold RedisClient.set_call_data, RedisClient._ensure_connection.
    rewrite Hc. reflexivity.
  - unfold RedisClient.set_call_data, RedisClient._ensure_connection.
    rewrite Hc. cbn [is_dict_or_list]. unfold RedisClient.client_set.
    cbn [RedisClient.encode wire_str py_str_bool].
    eexists; split; [reflexivity|]. cbn [RedisClient.strings]. split.
    + apply lookup_insert_eq.
    + unfold RedisClient.is_ai_speaking, RedisClient._ensure_connection.
      cbn [RedisClient.connected RedisClient.strings]. rewrite Hc.
      rewrite redis_key_flag_lookup. reflexivity.
Qed.

Lemma C6_set_call_data_true_not_observed_witness :
  RedisClient.connected RedisClient.empty = true /\
  (RedisClient.set_call_data wire_strict RedisClient.empty "call-1"
     "is_ai_speaking" (PBool true) = Raised "DataError"
   /\ exists c',
       RedisClient.set_call_data wire_str RedisClient.empty "call-1"
         "is_ai_speaking" (PBool true) = Ok c'
       /\ RedisClient.strings c' !! RedisClient.redis_key "call-1" "is_ai_speaking"
          = Some "True"
       /\ RedisClient.is_ai_speaking c' "call-1" = Ok false).
Proof.
  split; [reflexivity|].
  apply (C6_set_call_data_true_not_observed RedisClient.empty "call-1").
  reflexivity.
Defined.

Example flag_eval :
  RedisClient.is_ai_speaking
    {| RedisClient.connected := true;
       RedisClient.strings := <[RedisClient.redis_key "c" "is_ai_speaking" := "true"]> ∅;
       RedisClient.lists := ∅ |} "c" = Ok true.
Proof. vm_compute. reflexivity. Qed.

(** ** A final result with an empty transcript *)

(** C5. A final recognition result whose transcript is empty is dropped by
    each of the three controllers: the loop goes on to the next result and the
    world is the one before the result, trace included, so no request was sent
    to the language model, nothing was written to the history or the stores
    and no frame left for the caller. *)
Theorem C5_empty_final_is_ignored (duration : option Z) :
  (forall wire E call_id agent memory stream_sid w,
      CoreAIPipeline.process_result wire E call_id agent memory stream_sid
        (DgTranscript true "" duration) w = (Ok tt, w))
  /\ (forall E call_id agent stream_sid w,
      Orchestrator.handle_result E call_id agent stream_sid
        (DgTranscript true "" duration) w = (Ok tt, w))
  /\ (forall E call_id websocket_id agent w,
      AIOrchestrator.handle_result E call_id websocket_id agent
        (DgTranscript true "" duration) w = (Ok AIOrchestrator.Next, w)).
Proof.
  repeat split; intros; reflexivity.
Qed.

(** ** Outbound call initiation *)

(** C10 (evaluation at the failing input).  On every request the outbound
    call endpoint answers 500 and has done nothing: the call that should
    create the durable record names a method the database client does not
    have, so no record is created, and the provider is never asked to place
    the call. *)
Theorem C10_no_record_and_no_provider_call
    to_number agent_id from_number w :
  Orchestrator.trigger_outbound_call to_number agent_id from_number w
  = (Orchestrator.HTTPException 500, w).
Proof. reflexivity. Qed.
(** ** The call bring-up webhook *)

Definition c8_no_agent : AIOrchestrator.webhook_env :=
  {| AIOrchestrator.parse_client_state := AIOrchestrator.JSONDecodeError;
     AIOrchestrator.get_ai_agent := Ok None;
     AIOrchestrator.get_call_record := Ok false;
     AIOrchestrator.update_call_record_raises := false |}.

Definition c8_answered_inbound (media_url : option string)
  : AIOrchestrator.payload :=
  {| AIOrchestrator.p_call_id := Some "call-1";
     AIOrchestrator.p_from_number := Some "+15550100";
     AIOrchestrator.p_to_number := Some "+15550001";
     AIOrchestrator.p_media_url := media_url;
     AIOrchestrator.p_state := Some "answered";
     AIOrchestrator.p_direction := Some "inbound";
     AIOrchestrator.p_client_state := None |}.

(** C8 (evaluation at the failing input).  For an answered inbound call whose
    request carries a media URL the webhook never reaches the answer
    "No agent found": the lookup of the called number is made with a keyword
    the database client does not accept, the call raises, and the handler
    returns its 500 object after that one attempt, whatever the number
    routes to. *)
Theorem C8_inbound_lookup_raises WE p :
  AIOrchestrator.p_state p = Some "answered" ->
  opt_str_truthy (AIOrchestrator.p_media_url p) = true ->
  AIOrchestrator.p_direction p = Some "inbound" ->
  AIOrchestrator.signalwire_webhook_handler WE (AIOrchestrator.Object p)
  = (AIOrchestrator.ReturnedHTTPException 500,
     [AIOrchestrator.WGetPhoneNumber (AIOrchestrator.p_to_number p)
        (Raised "TypeError")]).
Proof.
  intros Hs Hm Hd.
  unfold AIOrchestrator.signalwire_webhook_handler, AIOrchestrator.webhook_body.
  rewrite Hs, Hm, Hd. reflexivity.
Qed.

Lemma C8_inbound_lookup_raises_witness :
  AIOrchestrator.signalwire_webhook_handler c8_no_agent
    (AIOrchestrator.Object
       (c8_answered_inbound (Some "wss://media.example/call-1")))
  = (AIOrchestrator.ReturnedHTTPException 500,
     [AIOrchestrator.WGetPhoneNumber (Some "+15550001") (Raised "TypeError")]).
Proof.
  exact (C8_inbound_lookup_raises c8_no_agent
           (c8_answered_inbound (Some "wss://media.example/call-1"))
           eq_refl eq_refl eq_refl).
Defined.

(** ** Playback tasks of the directly hosted controller *)

Definition quiet_env : Orchestrator.env :=
  {| Orchestrator.store_raises := fun _ => false;
     Orchestrator.generate := fun _ => GeminiService.Generated "Sure.";
     Orchestrator.tts_chunks := fun _ => ["chunk-1"; "chunk-2"];
     Orchestrator.ws_closed := fun _ => false;
     Orchestrator.ws_send_raises := fun _ => false |}.

Definition no_agent_fields : agent_config :=
  {| system_prompt := None; voice_id := None; initial_greeting := None |}.

Definition two_finals : list Orchestrator.sched :=
  [Orchestrator.Deliver (DgTranscript true "what is the weather" None);
   Orchestrator.Deliver (DgTranscript true "and tomorrow" None)].

Lemma request_cancel_idempotent t :
  Orchestrator.request_cancel (Orchestrator.request_cancel t)
  = Orchestrator.request_cancel t.
Proof.
  destruct t as [r []]; reflexivity.
Qed.

(** C4 (evaluation at the failing input). Two final transcripts delivered
    while the first reply is still being played leave two playback tasks
    alive, the handler holding only the second; when the first one finishes,
    its clean-up empties the handler's handle although the second task is
    still playing.  Requesting cancellation twice is the same as once. *)
Theorem C4_two_playback_tasks_alive :
  let w2 := snd (Orchestrator.run quiet_env "call-1" no_agent_fields None
                   two_finals Orchestrator.world0) in
  let w3 := snd (Orchestrator.run quiet_env "call-1" no_agent_fields None
                   (two_finals ++ [Orchestrator.Step 0; Orchestrator.Step 0;
                                   Orchestrator.Step 0])
                   Orchestrator.world0) in
  length (Orchestrator.alive w2) = 2
  /\ Orchestrator.current_tts_task w2 = Some 1
  /\ Orchestrator.done w2 0 = false
  /\ length (Orchestrator.alive w3) = 1
  /\ Orchestrator.done w3 1 = false
  /\ Orchestrator.current_tts_task w3 = None
  /\ forall t, Orchestrator.request_cancel (Orchestrator.request_cancel t)
               = Orchestrator.request_cancel t.
Proof.
  cbv zeta. repeat split; try (vm_compute; reflexivity).
  apply request_cancel_idempotent.
Qed.

(** ** Sequence numbers of the durable segments *)

(** No read of the database fails. *)
Definition all_reads_succeed : CoreAIPipeline.env :=
  {| CoreAIPipeline.list_records_raises := fun _ => false;
     CoreAIPipeline.create_segment_raises := fun _ => false;
     CoreAIPipeline.start_chat_raises := fun _ => false;
     CoreAIPipeline.send_message_reply := fun _ => Raised "unused";
     CoreAIPipeline.tts_chunks := fun _ => [];
     CoreAIPipeline.ws_closed := fun _ => false;
     CoreAIPipeline.ws_send_raises := fun _ => false |}.

(** The database read fails at the seventh collaborator call only. *)
Definition read_fails_at_6 : CoreAIPipeline.env :=
  {| CoreAIPipeline.list_records_raises := fun n => Nat.eqb n 6;
     CoreAIPipeline.create_segment_raises := fun _ => false;
     CoreAIPipeline.start_chat_raises := fun _ => false;
     CoreAIPipeline.send_message_reply := fun _ => Raised "unused";
     CoreAIPipeline.tts_chunks := fun _ => [];
     CoreAIPipeline.ws_closed := fun _ => false;
     CoreAIPipeline.ws_send_raises := fun _ => false |}.

(** Three user messages of one call, logged one after the other. *)
Definition log_three (E : CoreAIPipeline.env)
  : res unit * CoreAIPipeline.world :=
  (CoreAIPipeline._log_user_message E "call-1" "one" 0 >>
   CoreAIPipeline._log_user_message E "call-1" "two" 0 >>
   CoreAIPipeline._log_user_message E "call-1" "three" 0)
    CoreAIPipeline.world0.

Definition numbering (w : CoreAIPipeline.world)
  : list (string * option nat) :=
  map (fun s => (text_content s, sequence_number s))
      (CoreAIPipeline.call_segments w).

(** When every read succeeds the rows are numbered 1, 2, 3. *)
Lemma numbering_without_failure :
  numbering (snd (log_three all_reads_succeed))
  = [("one", Some 1); ("two", Some 2); ("three", Some 3)].
Proof. vm_compute. reflexivity. Qed.

(** C7 (evaluation at the failing input). Three user messages of one call are
    logged; the read that precedes the third write fails, every write
    succeeds.  The third segment is written with sequence number 1 again. *)
Theorem C7_duplicate_sequence_number :
  fst (log_three read_fails_at_6) = Ok tt
  /\ numbering (snd (log_three read_fails_at_6))
     = [("one", Some 1); ("two", Some 2); ("three", Some 1)]
  /\ CoreAIPipeline.trace (snd (log_three read_fails_at_6)) !! 6
     = Some (CoreAIPipeline.EListRecords "call-1" (Raised "SinkError")).
Proof.
  repeat split; vm_compute; reflexivity.
Qed.

(** ** Failure of the language model *)

(** The hosted controller asks the language model through
    [generate_response]: on a failure the canned utterance is played by a new
    task and appended as the assistant record. *)
Lemma hosted_llm_failure_plays_fallback :
  let E :=
    {| Orchestrator.store_raises := fun _ => false;
       Orchestrator.generate := fun _ => GeminiService.OtherException;
       Orchestrator.tts_chunks := fun _ => ["chunk-1"];
       Orchestrator.ws_closed := fun _ => false;
       Orchestrator.ws_send_raises := fun _ => false |} in
  let w :=
    snd (Orchestrator.handle_result E "call-1" no_agent_fields None
           (DgTranscript true "hello" None) Orchestrator.world0) in
  Orchestrator.trace w
  = [Orchestrator.EAppendTranscript "call-1" "user" "hello";
     Orchestrator.EGetMemory "call-1";
     Orchestrator.EGenerate "hello" GeminiService.OtherException;
     Orchestrator.ESetMemory "call-1" "hello" GeminiService.internal_error_text;
     Orchestrator.ESetCallData "call-1" "is_ai_speaking" (PBool true);
     Orchestrator.ECreateTask 0;
     Orchestrator.EAppendTranscript "call-1" "ai"
       GeminiService.internal_error_text]
  /\ length (Orchestrator.alive w) = 1.
Proof.
  cbv zeta. split; vm_compute; reflexivity.
Qed.

(** The language model times out whenever it is asked. *)
Definition llm_down : CoreAIPipeline.env :=
  {| CoreAIPipeline.list_records_raises := fun _ => false;
     CoreAIPipeline.create_segment_raises := fun _ => false;
     CoreAIPipeline.start_chat_raises := fun _ => false;
     CoreAIPipeline.send_message_reply := fun _ => Raised "TimeoutError";
     CoreAIPipeline.tts_chunks := fun _ => ["chunk-1"];
     CoreAIPipeline.ws_closed := fun _ => false;
     CoreAIPipeline.ws_send_raises := fun _ => false |}.

Definition user_row (call_id text : string) (n : nat) : segment :=
  {| seg_call_id := call_id; sequence_number := Some n; speaker := "user";
     text_content := text; asr_audio_seconds := Some 0%Z |}.

(** C9 (evaluation at the failing input). In the core pipeline a final
    transcript whose request to the language model fails is logged as a user
    segment and then nothing follows: no utterance is synthesized, no frame is
    sent, no assistant segment is written; the loop stays alive and takes the
    next result.  The one-shot entry point of the language-model client does
    substitute a canned utterance for the same failure. *)
Theorem C9_llm_failure_leaves_turn_unanswered :
  CoreAIPipeline.process_audio_stream wire_str llm_down "call-1"
    no_agent_fields [] None
    [DgTranscript true "hello" None; DgSpeechStarted] CoreAIPipeline.world0
  = (Ok tt,
     {| CoreAIPipeline.redis :=
          {| RedisClient.connected := true;
             RedisClient.strings := ∅;
             RedisClient.lists :=
               {[ RedisClient.redis_key "call-1" "transcript_history"
                  := [PStr "hello"] ]} |};
        CoreAIPipeline.call_segments := [user_row "call-1" "hello" 1];
        CoreAIPipeline.trace :=
          [CoreAIPipeline.EListRecords "call-1" (Ok None);
           CoreAIPipeline.ECreateSegment (user_row "call-1" "hello" 1) true;
           CoreAIPipeline.EAppendTranscript "call-1" "hello" true;
           CoreAIPipeline.EStartChat "You are a helpful AI assistant." [] true;
           CoreAIPipeline.ESendMessage "hello" (Raised "TimeoutError");
           CoreAIPipeline.EIsSpeaking "call-1" (Ok false)] |})
  /\ GeminiService.generate_response GeminiService.OtherException
     = Some GeminiService.internal_error_text.
Proof.
  split; [|reflexivity].
  vm_compute. reflexivity.
Qed.

(** ** What a coroutine of the core pipeline adds to the trace *)

Module CoreFacts.
Import CoreAIPipeline.

(** [emits P m]: whatever the world, [m] only appends to the trace, and
    every effect it appends satisfies [P]. *)
Definition emits {A} (P : effect -> Prop) (m : M world A) : Prop :=
  forall w, exists added,
    trace (snd (m w)) = trace w ++ added /\ Forall P added.

Lemma emits_ret {A} P (a : A) : emits P (ret a).
Proof. intros w. exists []. cbn. rewrite app_nil_r. auto. Qed.

Lemma emits_raise {A} P e : emits P (@raise world A e).
Proof. intros w. exists []. cbn. rewrite app_nil_r. auto. Qed.

Lemma emits_bind {A B} P (m : M world A) (k : A -> M world B) :
  emits P m -> (forall a, emits P (k a)) -> emits P (bind m k).
Proof.
  intros Hm Hk w. unfold bind.
  destruct (Hm w) as (l1 & E1 & F1).
  destruct (m w) as [[a|e] w1]; cbn in *.
  - destruct (Hk a w1) as (l2 & E2 & F2).
    exists (l1 ++ l2). rewrite E2, E1, app_assoc. split; [done|].
    apply Forall_app; auto.
  - exists l1. auto.
Qed.

Lemma emits_try_except {A} P (m : M world A) (h : string -> M world A) :
  emits P m -> (forall e, emits P (h e)) -> emits P (try_except m h).
Proof.
  intros Hm Hh w. unfold try_except.
  destruct (Hm w) as (l1 & E1 & F1).
  destruct (m w) as [[a|e] w1]; cbn in *.
  - exists l1. auto.
  - destruct (Hh e w1) as (l2 & E2 & F2).
    exists (l1 ++ l2). rewrite E2, E1, app_assoc. split; [done|].
    apply Forall_app; auto.
Qed.



(** One logged effect. *)
Lemma trace_log e w : trace (log e w) = trace w ++ [e].
Proof. reflexivity. Qed.

Section Prims.
Variable wire : pyval -> option string.
Variable E : env.
Variable P : effect -> Prop.

Lemma emits_is_speaking cid :
  (forall r, P (EIsSpeaking cid r)) -> emits P (redis_is_ai_speaking cid).
Proof.
  intros H w. eexists. split; [reflexivity|]. repeat constructor. apply H.
Qed.


Lemma emits_append_transcript cid text :
  (forall ok, P (EAppendTranscript cid text ok)) ->
  emits P (redis_append_transcript_segment cid text).
Proof.
  intros H w. unfold redis_append_transcript_segment.
  destruct (RedisClient.append_transcript_segment (redis w) cid (PStr text));
    (eexists; split; [reflexivity|]; repeat constructor; apply H).
Qed.

Lemma emits_list_records cid :
  (forall r, P (EListRecords cid r)) -> emits P (list_records E cid).
Proof.
  intros H w. eexists. split; [reflexivity|]. repeat constructor. apply H.
Qed.

Lemma emits_create_segment row :
  (forall ok, P (ECreateSegment row ok)) -> emits P (create_call_segment E row).
Proof.
  intros H w. unfold create_call_segment.
  destruct (create_segment_raises E (now w));
    (eexists; split; [reflexivity|]; repeat constructor; apply H).
Qed.




Lemma emits_closed :
  (forall b, P (EClosed b)) -> emits P (websocket_closed E).
Proof.
  intros H w. eexists. split; [reflexivity|]. repeat constructor. apply H.
Qed.

Lemma emits_send f :
  (forall ok, P (ESend f ok)) -> emits P (websocket_send E f).
Proof.
  intros H w. unfold websocket_send.
  destruct (ws_send_raises E (now w));
    (eexists; split; [reflexivity|]; repeat constructor; apply H).
Qed.
End Prims.

(** Effects by kind. *)
Definition is_flag_write (e : effect) : bool :=
  match e with
  | ESetCallData _ key _ _ => bool_decide (key = "is_ai_speaking")
  | _ => false
  end.

Definition is_media_sent (e : effect) : bool :=
  match e with
  | ESend (Media _ _) true | ESend (RawAudio _) true => true
  | _ => false
  end.

Definition is_send (e : effect) : bool :=
  match e with ESend _ _ => true | _ => false end.

Definition is_llm_call (e : effect) : bool :=
  match e with EStartChat _ _ _ | ESendMessage _ _ => true | _ => false end.

Definition is_assistant_row (e : effect) : bool :=
  match e with
  | ECreateSegment row _ => bool_decide (speaker row = "ai")
  | _ => false
  end.

Definition is_clear (call_id : string) (e : effect) : Prop :=
  exists ok, e = ESetCallData call_id "is_ai_speaking" (PBool false) ok.

(** The logging helpers touch neither the socket nor the flag nor the
    language model. *)
Definition quiet (e : effect) : Prop :=
  is_flag_write e = false /\ is_send e = false /\ is_llm_call e = false.

Lemma emits_get_next_sequence E cid : emits quiet (_get_next_sequence E cid).
Proof.
  unfold _get_next_sequence.
  apply emits_try_except; [|intros; apply emits_ret].
  apply emits_bind; [apply emits_list_records; intros; repeat split|].
  intros [row|]; [|apply emits_ret].
  destruct (sequence_number row); [apply emits_ret|apply emits_raise].
Qed.

Lemma emits_log_user_message E cid t d :
  emits quiet (_log_user_message E cid t d).
Proof.
  unfold _log_user_message.
  apply emits_try_except; [|intros; apply emits_raise].
  apply emits_bind; [apply emits_get_next_sequence|]. intros seq.
  apply emits_bind; [apply emits_create_segment; intros; repeat split|].
  intros _. apply emits_append_transcript; intros; repeat split.
Qed.


(** The streaming loops write frames and read the socket state, nothing
    else. *)
Definition streaming (e : effect) : Prop :=
  is_flag_write e = false /\ is_llm_call e = false
  /\ is_assistant_row e = false.


Lemma emits_greeting_chunks E chunks :
  emits streaming (WebSocketServer.send_greeting_chunks E chunks).
Proof.
  induction chunks as [|c rest IH];
    cbn [WebSocketServer.send_greeting_chunks]; [apply emits_ret|].
  apply emits_bind; [apply emits_closed; intros; repeat split|].
  intros [|]; [apply emits_ret|].
  apply emits_bind; [apply emits_send; intros; repeat split|]. intros _.
  exact IH.
Qed.

End CoreFacts.

(** ** The speaking flag around a playback *)

Module FlagFacts.
Import CoreAIPipeline.






End FlagFacts.


(** Every collaborator answers; the reply is synthesized in two chunks. *)
Definition all_well : CoreAIPipeline.env :=
  {| CoreAIPipeline.list_records_raises := fun _ => false;
     CoreAIPipeline.create_segment_raises := fun _ => false;
     CoreAIPipeline.start_chat_raises := fun _ => false;
     CoreAIPipeline.send_message_reply :=
       fun _ => Ok {| resp_text := Some "Sure."; resp_tool_calls := [] |};
     CoreAIPipeline.tts_chunks := fun _ => ["chunk-1"; "chunk-2"];
     CoreAIPipeline.ws_closed := fun _ => false;
     CoreAIPipeline.ws_send_raises := fun _ => false |}.

(** ** Order of the history appends within a turn *)

Module TurnFacts.
Import CoreAIPipeline CoreFacts.





(** [_get_next_sequence] always returns a number and logs the one read. *)
Lemma get_next_sequence_run E cid w :
  exists n r,
    _get_next_sequence E cid w = (Ok n, log (EListRecords cid r) w).
Proof.
  unfold _get_next_sequence, try_except, bind, list_records.
  destruct (list_records_raises E (now w)).
  - exists 1, (Raised "SinkError"). reflexivity.
  - destruct (latest_segment (call_segments w) cid) as [row|] eqn:Hrow.
    + destruct (sequence_number row) as [n|] eqn:Hn; cbn; rewrite ?Hn.
      * exists (n + 1), (Ok (Some row)). reflexivity.
      * exists 1, (Ok (Some row)). reflexivity.
    + exists 1, (Ok None). reflexivity.
Qed.

Definition user_segment (cid text : string) (n : nat) (d : Z) : segment :=
  {| seg_call_id := cid; sequence_number := Some n; speaker := "user";
     text_content := text; asr_audio_seconds := Some d |}.



End TurnFacts.

(** ** Turns and barge-in of the directly hosted controller *)

Module HostedFacts.
Import Orchestrator.

Lemma now_log e w : now (log e w) = S (now w).
Proof. unfold now, log. cbn. rewrite length_app. cbn. lia. Qed.


(** [SpeechStarted]: the read of the flag raises before anything is done. *)
Lemma speech_started_raises E cid agent sid w :
  handle_result E cid agent sid DgSpeechStarted w = (Raised "TypeError", w).
Proof. reflexivity. Qed.











End HostedFacts.

(** ** What a turn leaves in the transcript *)







(** ** Barge-in *)

(** A reply is being played: one chunk is out, one is still to come. *)
Definition playing_world : Orchestrator.world :=
  {| Orchestrator.current_tts_task := Some 0;
     Orchestrator.tasks :=
       [{| Orchestrator.remaining := ["chunk-2"];
           Orchestrator.status := Orchestrator.Running |}];
     Orchestrator.barge_ins_total := 0;
     Orchestrator.trace := [] |}.


(** * Further properties of the code *)

(** ** Session Store client *)

Module StoreFacts.
Import RedisClient RedisOps.

Lemma append_cons x (a b : string) :
  (String x a ++ b)%string = String x (a ++ b)%string.
Proof. reflexivity. Qed.

Lemma string_length_app (a b : string) :
  String.length (a ++ b)%string = String.length a + String.length b.
Proof.
  induction a as [|c a IH]; [reflexivity|].
  rewrite append_cons. simpl. rewrite IH. reflexivity.
Qed.

Lemma string_app_inv_tail (a b s : string) :
  (a ++ s)%string = (b ++ s)%string -> a = b.
Proof.
  revert b. induction a as [|c a IH]; intros [|d b] H.
  - reflexivity.
  - apply (f_equal String.length) in H.
    rewrite !string_length_app in H. simpl in H. lia.
  - apply (f_equal String.length) in H.
    rewrite !string_length_app in H. simpl in H. lia.
  - rewrite !append_cons in H. injection H as -> H. f_equal. apply IH, H.
Qed.

Lemma redis_key_inj call_id call_id' key :
  redis_key call_id key = redis_key call_id' key -> call_id = call_id'.
Proof.
  unfold redis_key. intros H.
  apply (inj (String.append "call:")) in H.
  apply (string_app_inv_tail _ _ (":" ++ key)%string), H.
Qed.

Lemma string_app_assoc (a b c : string) :
  ((a ++ b) ++ c)%string = (a ++ (b ++ c))%string.
Proof.
  induction a as [|x a IH]; [reflexivity|].
  rewrite !append_cons, IH. reflexivity.
Qed.

Lemma glob_prefix_star (p s : string) :
  glob_prefix (p ++ "*")%string (p ++ s)%string = true.
Proof.
  induction p as [|c p IH]; [reflexivity|].
  rewrite !append_cons. simpl.
  destruct (p ++ "*")%string as [|c' r] eqn:Hp.
  - destruct p; discriminate.
  - rewrite Ascii.eqb_refl. exact IH.
Qed.

Lemma glob_prefix_call call_id field :
  glob_prefix (call_pattern call_id) (redis_key call_id field) = true.
Proof.
  unfold call_pattern, redis_key.
  pose proof (glob_prefix_star ("call:" ++ call_id ++ ":") field) as H.
  rewrite !string_app_assoc in H. exact H.
Qed.

End StoreFacts.

(** X1. On a connected client, the flag written by [set_ai_speaking] is the
    flag read by [is_ai_speaking], for both values. *)
Theorem X1_set_ai_speaking_then_read wire c call_id v :
  RedisClient.connected c = true ->
  exists c', RedisClient.set_ai_speaking wire c call_id v = Ok c'
             /\ RedisClient.is_ai_speaking c' call_id = Ok v.
Proof.
  apply set_ai_speaking_round_trip.
Qed.

Lemma X1_set_ai_speaking_then_read_witness :
  exists c', RedisClient.set_ai_speaking wire_strict RedisClient.empty
               "call-1" true = Ok c'
             /\ RedisClient.is_ai_speaking c' "call-1" = Ok true.
Proof.
  exact (X1_set_ai_speaking_then_read wire_strict RedisClient.empty "call-1"
           true eq_refl).
Defined.

(** X2. Writing the flag of one call leaves the flag of every other call as
    it was. *)
Theorem X2_flag_of_other_call_untouched wire c call_id other v c' :
  call_id <> other ->
  RedisClient.set_ai_speaking wire c call_id v = Ok c' ->
  RedisClient.is_ai_speaking c' other = RedisClient.is_ai_speaking c other.
Proof.
  intros Hne. unfold RedisClient.set_ai_speaking, RedisClient._ensure_connection.
  destruct (RedisClient.connected c) eqn:Hc; [|discriminate].
  cbn [RedisClient.client_set RedisClient.encode]. intros [= <-].
  unfold RedisClient.is_ai_speaking, RedisClient._ensure_connection.
  cbn [RedisClient.connected RedisClient.strings]. rewrite Hc.
  rewrite lookup_insert_ne; [reflexivity|].
  intros H. apply Hne. eapply StoreFacts.redis_key_inj, H.
Qed.

Lemma X2_flag_of_other_call_untouched_witness :
  RedisClient.is_ai_speaking
    {| RedisClient.connected := true;
       RedisClient.strings :=
         <[RedisClient.redis_key "call-1" "is_ai_speaking" := "true"]> ∅;
       RedisClient.lists := delete
         (RedisClient.redis_key "call-1" "is_ai_speaking") ∅ |} "call-2"
  = RedisClient.is_ai_speaking RedisClient.empty "call-2".
Proof.
  refine (X2_flag_of_other_call_untouched wire_strict RedisClient.empty
            "call-1" "call-2" true _ _ eq_refl).
  discriminate.
Defined.

(** X3. What [get_call_data] returns for a field that was written with
    [set_call_data] as a [str]: [None] for the empty text, the decoded value
    when the text happens to be JSON, and the text itself otherwise. *)
Theorem X3_get_call_data_after_set json_loads wire c call_id key s c' :
  RedisClient.set_call_data wire c call_id key (PStr s) = Ok c' ->
  RedisOps.get_call_data json_loads c' call_id key
  = Ok (if str_truthy s then
          match json_loads s with Some v => v | None => PStr s end
        else PNone).
Proof.
  unfold RedisClient.set_call_data, RedisClient._ensure_connection.
  destruct (RedisClient.connected c) eqn:Hc; [|discriminate].
  cbn [is_dict_or_list RedisClient.client_set RedisClient.encode].
  intros [= <-].
  unfold RedisOps.get_call_data, RedisClient._ensure_connection.
  cbn [RedisClient.connected RedisClient.strings RedisClient.lists].
  rewrite Hc, lookup_delete_eq, lookup_insert_eq.
  destruct (str_truthy s); [|reflexivity].
  destruct (json_loads s); reflexivity.
Qed.

Lemma X3_get_call_data_after_set_witness :
  RedisOps.get_call_data (fun _ => None)
    {| RedisClient.connected := true;
       RedisClient.strings :=
         <[RedisClient.redis_key "call-1" "current_status" := "answered"]> ∅;
       RedisClient.lists :=
         delete (RedisClient.redis_key "call-1" "current_status") ∅ |}
    "call-1" "current_status"
  = Ok (PStr "answered").
Proof.
  exact (X3_get_call_data_after_set (fun _ => None) wire_strict
           RedisClient.empty "call-1" "current_status" "answered" _ eq_refl).
Defined.

(** The transcript appends of a call, one after the other. *)
Fixpoint append_all (c : RedisClient.t) (call_id : string)
    (segments : list pyval) : res RedisClient.t :=
  match segments with
  | [] => Ok c
  | segment :: rest =>
      match RedisClient.append_transcript_segment c call_id segment with
      | Ok c' => append_all c' call_id rest
      | Raised e => Raised e
      end
  end.

(** X5. On a connected client whose transcript key does not hold a string,
    any number of [append_transcript_segment] calls succeed, and
    [get_full_transcript] then returns what was there before followed by the
    appended segments, in the order of the calls. *)
Theorem X5_transcript_keeps_order c call_id segments before :
  RedisClient.connected c = true ->
  RedisClient.strings c !! RedisClient.redis_key call_id "transcript_history"
    = None ->
  RedisOps.get_full_transcript c call_id = Ok before ->
  exists c',
    append_all c call_id segments = Ok c'
    /\ RedisOps.get_full_transcript c' call_id = Ok (before ++ segments).
Proof.
  revert c before. induction segments as [|s rest IH]; intros c before Hc Hs Hb.
  - exists c. rewrite app_nil_r. auto.
  - cbn [append_all].
    unfold RedisClient.append_transcript_segment,
      RedisClient._ensure_connection.
    rewrite Hc, Hs.
    unfold RedisOps.get_full_transcript, RedisClient._ensure_connection in Hb.
    rewrite Hc, Hs in Hb. injection Hb as Hb.
    match goal with
    | |- context [append_all ?c1 call_id rest] =>
        destruct (IH c1 (before ++ [s])) as (c' & Hrun & Hget)
    end.
    + reflexivity.
    + exact Hs.
    + unfold RedisOps.get_full_transcript, RedisClient._ensure_connection.
      cbn [RedisClient.connected RedisClient.strings RedisClient.lists].
      rewrite ?Hc, Hs, lookup_insert_eq, Hb. reflexivity.
    + exists c'. split; [exact Hrun|]. rewrite Hget, <- app_assoc.
      reflexivity.
Qed.

Lemma X5_transcript_keeps_order_witness :
  exists c',
    append_all RedisClient.empty "call-1" [PStr "hello"; PStr "Sure."] = Ok c'
    /\ RedisOps.get_full_transcript c' "call-1"
       = Ok ([] ++ [PStr "hello"; PStr "Sure."]).
Proof.
  exact (X5_transcript_keeps_order RedisClient.empty "call-1"
           [PStr "hello"; PStr "Sure."] [] eq_refl eq_refl eq_refl).
Defined.

(** X6. After [clear_call_cache], on a server whose pattern match accepts the
    keys of the call, every read for that call finds nothing: the flag reads
    false, the transcript is empty and every field is [None]; keys that the
    pattern does not match are left as they were. *)
Theorem X6_clear_then_reads_empty glob json_loads c call_id c' :
  (forall field,
      glob (RedisOps.call_pattern call_id)
           (RedisClient.redis_key call_id field) = true) ->
  RedisOps.clear_call_cache glob c call_id = Ok c' ->
  RedisClient.is_ai_speaking c' call_id = Ok false
  /\ RedisOps.get_full_transcript c' call_id = Ok []
  /\ (forall field,
         RedisOps.get_call_data json_loads c' call_id field = Ok PNone)
  /\ (forall k,
         glob (RedisOps.call_pattern call_id) k = false ->
         RedisClient.strings c' !! k = RedisClient.strings c !! k
         /\ RedisClient.lists c' !! k = RedisClient.lists c !! k).
Proof.
  intros Hg. unfold RedisOps.clear_call_cache, RedisClient._ensure_connection.
  destruct (RedisClient.connected c) eqn:Hc; [|discriminate].
  intros [= <-].
  assert (Hs : forall field,
    filter (fun kv : string * string =>
              glob (RedisOps.call_pattern call_id) kv.1 = false)
      (RedisClient.strings c) !! RedisClient.redis_key call_id field = None).
  { intros field. apply map_lookup_filter_None. right. intros x _ H.
    cbn in H. rewrite Hg in H. discriminate. }
  assert (Hl : forall field,
    filter (fun kv : string * list pyval =>
              glob (RedisOps.call_pattern call_id) kv.1 = false)
      (RedisClient.lists c) !! RedisClient.redis_key call_id field = None).
  { intros field. apply map_lookup_filter_None. right. intros x _ H.
    cbn in H. rewrite Hg in H. discriminate. }
  repeat split.
  - unfold RedisClient.is_ai_speaking, RedisClient._ensure_connection.
    cbn [RedisClient.connected RedisClient.strings]. rewrite ?Hc, Hs.
    reflexivity.
  - unfold RedisOps.get_full_transcript, RedisClient._ensure_connection.
    cbn [RedisClient.connected RedisClient.strings RedisClient.lists].
    rewrite ?Hc, Hs, Hl. reflexivity.
  - intros field.
    unfold RedisOps.get_call_data, RedisClient._ensure_connection.
    cbn [RedisClient.connected RedisClient.strings RedisClient.lists].
    rewrite ?Hc, Hs, Hl. reflexivity.
  - cbn [RedisClient.strings]. rewrite map_lookup_filter.
    destruct (RedisClient.strings c !! k) as [x|]; [|reflexivity].
    cbn. rewrite option_guard_True by (cbn; assumption). reflexivity.
  - cbn [RedisClient.lists]. rewrite map_lookup_filter.
    destruct (RedisClient.lists c !! k) as [x|]; [|reflexivity].
    cbn. rewrite option_guard_True by (cbn; assumption). reflexivity.
Qed.

Definition store_of_two_calls : RedisClient.t :=
  {| RedisClient.connected := true;
     RedisClient.strings :=
       {[ RedisClient.redis_key "call-1" "is_ai_speaking" := "true";
          RedisClient.redis_key "call-2" "is_ai_speaking" := "true" ]};
     RedisClient.lists :=
       {[ RedisClient.redis_key "call-1" "transcript_history"
          := [PStr "hello"] ]} |}.

Lemma X6_clear_then_reads_empty_witness :
  exists c',
    RedisOps.clear_call_cache RedisOps.glob_prefix store_of_two_calls "call-1"
      = Ok c'
    /\ RedisClient.is_ai_speaking c' "call-1" = Ok false
    /\ RedisOps.get_full_transcript c' "call-1" = Ok []
    /\ RedisClient.is_ai_speaking c' "call-2" = Ok true.
Proof.
  eexists. split; [reflexivity|].
  destruct (X6_clear_then_reads_empty RedisOps.glob_prefix (fun _ => None)
              store_of_two_calls "call-1" _
              (StoreFacts.glob_prefix_call "call-1") eq_refl)
    as (H1 & H2 & _ & _).
  split; [exact H1|]. split; [exact H2|]. vm_compute. reflexivity.
Defined.

(** ** The sliding-window rate limit *)

(** Requests served one after the other at the given instants. *)
Fixpoint serve (zs : gset Z) (limit window : Z) (times : list Z) : list bool :=
  match times with
  | [] => []
  | now :: rest =>
      let '(allowed, zs') := RedisOps.set_rate_limit zs limit window now in
      allowed :: serve zs' limit window rest
  end.

Module RateFacts.
Import RedisOps.

(** A request that falls within the window of every recorded one: nothing is
    dropped, the request is recorded, and it is allowed when the count,
    itself included, does not exceed the limit. *)
Lemma request_in_window (zs : gset Z) limit window now :
  (forall s, s ∈ zs -> (now - micro window < s)%Z) ->
  now ∉ zs ->
  set_rate_limit zs limit window now
  = (bool_decide (Z.of_nat (S (size zs)) <= limit)%Z, {[ now ]} ∪ zs).
Proof.
  intros Hin Hnew. unfold set_rate_limit, zremrangebyscore.
  assert (Hkeep : filter (fun s => ~ (0 <= s <= now - micro window)%Z) zs = zs).
  { apply set_eq. intros x. rewrite elem_of_filter. split; [tauto|].
    intros Hx. split; [|exact Hx]. specialize (Hin x Hx). lia. }
  rewrite Hkeep. f_equal.
  rewrite size_union by (apply disjoint_singleton_l; exact Hnew).
  rewrite size_singleton. reflexivity.
Qed.

Lemma serve_burst limit window times (zs : gset Z) :
  StronglySorted Z.lt times ->
  (forall s t, s ∈ zs -> t ∈ times -> (s < t /\ t - micro window < s)%Z) ->
  (forall t u, t ∈ times -> u ∈ times -> (u - micro window < t)%Z) ->
  serve zs limit window times
  = map (fun i => bool_decide (Z.of_nat (S i) <= limit)%Z)
        (seq (size zs) (length times)).
Proof.
  revert zs. induction times as [|now rest IH]; intros zs Hsorted Hzs Hwin.
  - reflexivity.
  - cbn [serve length seq map].
    assert (Hnow : now ∈ now :: rest) by (apply elem_of_cons; auto).
    rewrite request_in_window.
    + f_equal.
      inversion Hsorted as [|? ? Hs' Hall]; subst.
      rewrite IH.
      * rewrite size_union, size_singleton; [reflexivity|].
        apply disjoint_singleton_l. intros Hn.
        destruct (Hzs now now Hn Hnow). lia.
      * exact Hs'.
      * intros s t Hs Ht.
        assert (Ht' : t ∈ now :: rest) by (apply elem_of_cons; auto).
        apply elem_of_union in Hs as [Hs|Hs].
        -- apply elem_of_singleton in Hs. subst s.
           rewrite Forall_forall in Hall.
           split; [apply Hall, Ht | apply Hwin; auto].
        -- apply Hzs; auto.
      * intros t u Ht Hu. apply Hwin; apply elem_of_cons; auto.
    + intros s Hs. apply (Hzs s now Hs Hnow).
    + intros Hn. destruct (Hzs now now Hn Hnow). lia.
Qed.

End RateFacts.

(** X7. A burst: requests at strictly increasing instants that all fall
    within one window of each other, on a key with no history.  The first
    [limit] requests are allowed and every later one is refused; refused
    requests are recorded like the others, so the burst keeps itself
    refused. *)
Theorem X7_burst_allows_limit_requests limit window times :
  StronglySorted Z.lt times ->
  (forall t u, t ∈ times -> u ∈ times -> (u - RedisOps.micro window < t)%Z) ->
  serve ∅ limit window times
  = map (fun i => bool_decide (Z.of_nat (S i) <= limit)%Z)
        (seq 0 (length times)).
Proof.
  intros Hs Hw.
  rewrite (RateFacts.serve_burst limit window times ∅ Hs); [reflexivity| |exact Hw].
  intros s t Hs'. set_solver.
Qed.

Lemma X7_burst_allows_limit_requests_witness :
  serve ∅ 2 60 [0; 1000; 2500; 4000]%Z
  = map (fun i => bool_decide (Z.of_nat (S i) <= 2)%Z) (seq 0 4).
Proof.
  refine (X7_burst_allows_limit_requests 2 60 [0; 1000; 2500; 4000]%Z _ _).
  - repeat constructor; lia.
  - intros t u Ht Hu.
    rewrite !elem_of_cons, elem_of_nil in Ht.
    rewrite !elem_of_cons, elem_of_nil in Hu.
    unfold RedisOps.micro. lia.
Defined.

(** X8. After a quiet window: when every recorded request is at least one
    window old, all of them are dropped and the new request is counted
    alone, so it is allowed as soon as the limit is at least one. *)
Theorem X8_quiet_window_resets (zs : gset Z) limit window now :
  (forall s, s ∈ zs -> (0 <= s <= now - RedisOps.micro window)%Z) ->
  RedisOps.set_rate_limit zs limit window now
  = (bool_decide (1 <= limit)%Z, {[ now ]}).
Proof.
  intros Hold. unfold RedisOps.set_rate_limit, RedisOps.zremrangebyscore.
  assert (Hdrop :
    filter (fun s => ~ (0 <= s <= now - RedisOps.micro window)%Z) zs = ∅).
  { apply set_eq. intros x. rewrite elem_of_filter. split.
    - intros [Hn Hx]. destruct Hn. apply Hold, Hx.
    - set_solver. }
  rewrite Hdrop, union_empty_r_L, size_singleton. reflexivity.
Qed.

Lemma X8_quiet_window_resets_witness :
  RedisOps.set_rate_limit {[ 0; 1000 ]}%Z 1 60 61000000%Z
  = (bool_decide (1 <= 1)%Z, {[ 61000000%Z ]}).
Proof.
  refine (X8_quiet_window_resets {[ 0; 1000 ]}%Z 1 60 61000000%Z _).
  intros s Hs. rewrite elem_of_union, !elem_of_singleton in Hs.
  unfold RedisOps.micro. lia.
Defined.

(** ** Core pipeline: results that are dropped, failures that stop it *)

Fixpoint all_space (t : string) : bool :=
  match t with
  | EmptyString => true
  | String a rest => is_space a && all_space rest
  end.

Lemma strip_all_space t : all_space t = true -> strip t = "".
Proof.
  unfold strip. induction t as [|a t IH]; [reflexivity|].
  cbn [all_space lstrip]. intros H. apply andb_true_iff in H as [Ha Ht].
  rewrite Ha. apply IH, Ht.
Qed.

(** X11. A final transcript made of white space only is dropped like an
    empty one by the core pipeline and by the telephony backend, which strip
    the transcript: the world is unchanged and the loop goes on. *)
Theorem X11_blank_final_is_ignored
    wire E AE call_id websocket_id agent memory stream_sid t d w aw :
  all_space t = true ->
  CoreAIPipeline.process_result wire E call_id agent memory stream_sid
    (DgTranscript true t d) w = (Ok tt, w)
  /\ AIOrchestrator.handle_result AE call_id websocket_id agent
       (DgTranscript true t d) aw
     = (Ok AIOrchestrator.Next, aw).
Proof.
  intros H. apply strip_all_space in H. split.
  - unfold CoreAIPipeline.process_result.
    change (is_speech_started (DgTranscript true t d)) with false.
    cbn [get_is_final get_transcript]. rewrite H. reflexivity.
  - unfold AIOrchestrator.handle_result.
    change (is_speech_started (DgTranscript true t d)) with false.
    cbn [get_is_final get_transcript]. rewrite H. reflexivity.
Qed.

Definition telephony_env : AIOrchestrator.env :=
  {| AIOrchestrator.flag_truthy := fun _ => false;
     AIOrchestrator.store_raises := fun _ => false;
     AIOrchestrator.create_segment_raises := fun _ => false;
     AIOrchestrator.start_chat_raises := fun _ => false;
     AIOrchestrator.send_message_reply :=
       fun _ => Ok (Some {| resp_text := Some "Sure.";
                            resp_tool_calls := [] |});
     AIOrchestrator.tts_chunks := fun _ => ["chunk-1"; "chunk-2"];
     AIOrchestrator.ws_closed := fun _ => false;
     AIOrchestrator.ws_send_raises := fun _ => false;
     AIOrchestrator.task_done := fun _ => false |}.

Definition telephony_world0 : AIOrchestrator.world :=
  {| AIOrchestrator.tts_task := None;
     AIOrchestrator.conversation_memory := [];
     AIOrchestrator.trace := [] |}.

Lemma X11_blank_final_is_ignored_witness :
  CoreAIPipeline.process_result wire_str all_well "call-1" no_agent_fields []
    None (DgTranscript true "   " None) CoreAIPipeline.world0
  = (Ok tt, CoreAIPipeline.world0)
  /\ AIOrchestrator.handle_result telephony_env "call-1" "ws-1"
       no_agent_fields (DgTranscript true "   " None) telephony_world0
     = (Ok AIOrchestrator.Next, telephony_world0).
Proof.
  exact (X11_blank_final_is_ignored wire_str all_well telephony_env "call-1"
           "ws-1" no_agent_fields [] None "   " None CoreAIPipeline.world0
           telephony_world0 eq_refl).
Defined.

(** A result that is neither final nor a start of speech: an interim
    transcript, a recognizer error, a close. *)
Definition ignorable (r : dg_result) : Prop :=
  get_is_final r = false /\ is_speech_started r = false.

(** X12. The core pipeline does nothing at all on a stream of interim
    transcripts, recognizer errors and closes: the world is unchanged, so no
    request reaches the language model and no fallback utterance is played
    for a recognizer error. *)
Theorem X12_core_ignores_non_final_results
    wire E call_id agent memory stream_sid results w :
  Forall ignorable results ->
  CoreAIPipeline.process_audio_stream wire E call_id agent memory stream_sid
    results w = (Ok tt, w).
Proof.
  intros H. unfold CoreAIPipeline.process_audio_stream, try_except.
  assert (Hr : CoreAIPipeline.process_results wire E call_id agent memory
                 stream_sid results w = (Ok tt, w)).
  { induction H as [|r rest [Hf Hs] _ IH]; [reflexivity|].
    cbn [CoreAIPipeline.process_results].
    unfold bind, CoreAIPipeline.process_result.
    rewrite Hs, Hf. cbn. exact IH. }
  rewrite Hr. reflexivity.
Qed.

Lemma X12_core_ignores_non_final_results_witness :
  CoreAIPipeline.process_audio_stream wire_str all_well "call-1"
    no_agent_fields [] None
    [DgTranscript false "what is" None; DgError "stream reset"; DgClose]
    CoreAIPipeline.world0
  = (Ok tt, CoreAIPipeline.world0).
Proof.
  refine (X12_core_ignores_non_final_results wire_str all_well "call-1"
            no_agent_fields [] None
            [DgTranscript false "what is" None; DgError "stream reset"; DgClose]
            CoreAIPipeline.world0 _).
  repeat constructor.
Defined.

(** X13. In the core pipeline a failed write of the user row ends the
    stream: on a final ASCII transcript that is not blank,
    [process_audio_stream] raises right after the failed write, the language
    model is not asked and the results that follow are never taken. *)
Theorem X13_failed_user_write_stops_pipeline
    wire E call_id agent memory stream_sid t d rest w :
  is_ascii t = true ->
  str_truthy (strip t) = true ->
  CoreAIPipeline.create_segment_raises E (S (CoreAIPipeline.now w)) = true ->
  exists r n,
    CoreAIPipeline.process_audio_stream wire E call_id agent memory stream_sid
      (DgTranscript true t d :: rest) w
    = (Raised "SinkError",
       CoreAIPipeline.log
         (CoreAIPipeline.ECreateSegment
            (TurnFacts.user_segment call_id (strip t) n
               (get_duration (DgTranscript true t d))) false)
         (CoreAIPipeline.log (CoreAIPipeline.EListRecords call_id r) w)).
Proof.
  intros _ Ht Hc.
  destruct (TurnFacts.get_next_sequence_run E call_id w) as (n & r & Hseq).
  exists r, n.
  unfold CoreAIPipeline.process_audio_stream, try_except.
  cbn [CoreAIPipeline.process_results].
  unfold bind at 1. unfold CoreAIPipeline.process_result.
  change (is_speech_started (DgTranscript true t d)) with false.
  cbn [get_is_final get_transcript]. rewrite Ht. cbn [negb].
  unfold bind at 1. unfold CoreAIPipeline._log_user_message, try_except.
  unfold bind at 1.
  rewrite Hseq. unfold bind at 1. unfold CoreAIPipeline.create_call_segment.
  assert (Hnow : CoreAIPipeline.now
                   (CoreAIPipeline.log (CoreAIPipeline.EListRecords call_id r) w)
                 = S (CoreAIPipeline.now w)).
  { unfold CoreAIPipeline.now, CoreAIPipeline.log. cbn.
    rewrite length_app. cbn. lia. }
  rewrite Hnow, Hc. reflexivity.
Qed.

(** The database refuses every write. *)
Definition writes_fail : CoreAIPipeline.env :=
  {| CoreAIPipeline.list_records_raises := fun _ => false;
     CoreAIPipeline.create_segment_raises := fun _ => true;
     CoreAIPipeline.start_chat_raises := fun _ => false;
     CoreAIPipeline.send_message_reply :=
       fun _ => Ok {| resp_text := Some "Sure."; resp_tool_calls := [] |};
     CoreAIPipeline.tts_chunks := fun _ => ["chunk-1"];
     CoreAIPipeline.ws_closed := fun _ => false;
     CoreAIPipeline.ws_send_raises := fun _ => false |}.

Lemma X13_failed_user_write_stops_pipeline_witness :
  exists r n,
    CoreAIPipeline.process_audio_stream wire_strict writes_fail "call-1"
      no_agent_fields [] None
      [DgTranscript true "hello" None; DgTranscript true "again" None]
      CoreAIPipeline.world0
    = (Raised "SinkError",
       CoreAIPipeline.log
         (CoreAIPipeline.ECreateSegment
            (TurnFacts.user_segment "call-1" (strip "hello") n
               (get_duration (DgTranscript true "hello" None))) false)
         (CoreAIPipeline.log (CoreAIPipeline.EListRecords "call-1" r)
            CoreAIPipeline.world0)).
Proof.
  exact (X13_failed_user_write_stops_pipeline wire_strict writes_fail "call-1"
           no_agent_fields [] None "hello" None
           [DgTranscript true "again" None] CoreAIPipeline.world0
           eq_refl eq_refl eq_refl).
Defined.

(** ** Core pipeline: frames of a playback *)

(** The chunk carried by a frame that was sent. *)
Definition sent_chunk (e : CoreAIPipeline.effect) : option string :=
  match e with
  | CoreAIPipeline.ESend (Media _ c) true
  | CoreAIPipeline.ESend (RawAudio c) true => Some c
  | _ => None
  end.

Definition chunks_sent (added : list CoreAIPipeline.effect) : list string :=
  omap sent_chunk added.

(** The effects of a playback whose every chunk goes out. *)
Definition frames_of (stream_sid : option string) (chunks : list string)
  : list CoreAIPipeline.effect :=
  flat_map (fun c => [CoreAIPipeline.EClosed false;
                      CoreAIPipeline.ESend (Media stream_sid c) true;
                      CoreAIPipeline.ESend Mark true])
           chunks.

(** X14. Whatever the socket does, the chunks that the streaming loop sends
    are a prefix of the chunks of the stream: chunks leave in stream order,
    none is skipped, repeated or sent after the loop has stopped. *)
Theorem X14_sent_chunks_are_a_prefix E stream_sid chunks w :
  exists added,
    CoreAIPipeline.trace (snd (CoreAIPipeline.stream_chunks E stream_sid chunks w))
    = CoreAIPipeline.trace w ++ added
    /\ chunks_sent added `prefix_of` chunks.
Proof.
  revert w. induction chunks as [|c rest IH]; intros w.
  - exists []. cbn. rewrite app_nil_r. split; [reflexivity|]. apply prefix_nil.
  - cbn [CoreAIPipeline.stream_chunks]. unfold bind, CoreAIPipeline.websocket_closed.
    destruct (CoreAIPipeline.ws_closed E (CoreAIPipeline.now w)).
    + exists [CoreAIPipeline.EClosed true]. split; [reflexivity|]. apply prefix_nil.
    + unfold CoreAIPipeline.websocket_send at 1.
      destruct (CoreAIPipeline.ws_send_raises E (CoreAIPipeline.now (CoreAIPipeline.log (CoreAIPipeline.EClosed false) w))).
      * exists [CoreAIPipeline.EClosed false; CoreAIPipeline.ESend (Media stream_sid c) false].
        cbn. rewrite <- app_assoc. split; [reflexivity|]. apply prefix_nil.
      * unfold CoreAIPipeline.websocket_send at 1.
        match goal with
        | |- context [CoreAIPipeline.ws_send_raises E (CoreAIPipeline.now ?w2)] =>
            destruct (CoreAIPipeline.ws_send_raises E (CoreAIPipeline.now w2))
        end.
        -- exists [CoreAIPipeline.EClosed false; CoreAIPipeline.ESend (Media stream_sid c) true; CoreAIPipeline.ESend Mark false].
           cbn. rewrite <- !app_assoc. split; [reflexivity|].
           apply prefix_cons, prefix_nil.
        -- match goal with
           | |- context [CoreAIPipeline.stream_chunks E stream_sid rest ?w3] =>
               destruct (IH w3) as (added & Ht & Hp)
           end.
           exists ([CoreAIPipeline.EClosed false; CoreAIPipeline.ESend (Media stream_sid c) true; CoreAIPipeline.ESend Mark true]
                     ++ added).
           rewrite Ht. cbn. rewrite <- !app_assoc. split; [reflexivity|].
           apply prefix_cons, Hp.
Qed.

(** X15. While the socket stays open and accepts every frame, the streaming
    loop sends every chunk of the stream, in order, each media frame followed
    by its mark, and changes nothing but the trace. *)
Theorem X15_open_socket_gets_every_chunk E stream_sid chunks w :
  (forall n, CoreAIPipeline.ws_closed E n = false) ->
  (forall n, CoreAIPipeline.ws_send_raises E n = false) ->
  CoreAIPipeline.stream_chunks E stream_sid chunks w
  = (Ok tt,
     {| CoreAIPipeline.redis := CoreAIPipeline.redis w;
        CoreAIPipeline.call_segments := CoreAIPipeline.call_segments w;
        CoreAIPipeline.trace :=
          CoreAIPipeline.trace w ++ frames_of stream_sid chunks |})
  /\ chunks_sent (frames_of stream_sid chunks) = chunks.
Proof.
  intros Hc Hs. split.
  - revert w. induction chunks as [|c rest IH]; intros w.
    + cbn. rewrite app_nil_r. destruct w; reflexivity.
    + cbn [CoreAIPipeline.stream_chunks].
      unfold bind, CoreAIPipeline.websocket_closed,
        CoreAIPipeline.websocket_send.
      rewrite Hc, !Hs. rewrite IH. cbn. rewrite <- !app_assoc. reflexivity.
  - induction chunks as [|c rest IH]; [reflexivity|].
    cbn. unfold chunks_sent, frames_of in IH. rewrite IH. reflexivity.
Qed.

Lemma X15_open_socket_gets_every_chunk_witness :
  CoreAIPipeline.stream_chunks all_well None ["chunk-1"; "chunk-2"]
    CoreAIPipeline.world0
  = (Ok tt,
     {| CoreAIPipeline.redis := CoreAIPipeline.redis CoreAIPipeline.world0;
        CoreAIPipeline.call_segments :=
          CoreAIPipeline.call_segments CoreAIPipeline.world0;
        CoreAIPipeline.trace :=
          CoreAIPipeline.trace CoreAIPipeline.world0
          ++ frames_of None ["chunk-1"; "chunk-2"] |})
  /\ chunks_sent (frames_of None ["chunk-1"; "chunk-2"])
     = ["chunk-1"; "chunk-2"].
Proof.
  exact (X15_open_socket_gets_every_chunk all_well None
           ["chunk-1"; "chunk-2"] CoreAIPipeline.world0
           (fun _ => eq_refl) (fun _ => eq_refl)).
Defined.

(** ** Directly hosted controller: barge-in test, fallback, playback tasks *)

(** The frames of the inline fallback playback. *)
Definition fallback_frames (stream_sid : option string) (chunks : list string)
  : list Orchestrator.effect :=
  flat_map (fun c => [Orchestrator.EClosed false;
                      Orchestrator.ESend None (Media stream_sid c)]) chunks.

(** The frames a playback task sends for its chunks. *)
Definition task_frames (tid : nat) (stream_sid : option string)
    (chunks : list string) : list Orchestrator.effect :=
  flat_map (fun c => [Orchestrator.EClosed false;
                      Orchestrator.ESend (Some tid) (Media stream_sid c);
                      Orchestrator.ESend (Some tid) Mark]) chunks.

(** A task once its coroutine has returned. *)
Definition finished (t : Orchestrator.task) : Orchestrator.task :=
  {| Orchestrator.remaining := Orchestrator.remaining t;
     Orchestrator.status := Orchestrator.Finished |}.

Module PlaybackFacts.
Import Orchestrator.

Lemma stream_fallback_open E sid chunks w :
  (forall n, ws_closed E n = false) ->
  (forall n, ws_send_raises E n = false) ->
  stream_fallback E sid chunks w
  = (Ok tt,
     {| current_tts_task := current_tts_task w; tasks := tasks w;
        barge_ins_total := barge_ins_total w;
        trace := trace w ++ fallback_frames sid chunks |}).
Proof.
  intros Hc Hs. revert w. induction chunks as [|c rest IH]; intros w.
  - cbn. rewrite app_nil_r. destruct w; reflexivity.
  - cbn [stream_fallback]. rewrite Hc, Hs, IH. cbn.
    rewrite <- !app_assoc. reflexivity.
Qed.

End PlaybackFacts.

(** X17. On a recognizer error, with the store answering and the socket open,
    the controller plays the fallback utterance inline: the flag is written
    [True], the fallback text is synthesized, every chunk is sent in order,
    and the flag is written [False].  No task is created and the handle is
    untouched. *)
Theorem X17_recognizer_error_plays_fallback
    E call_id agent stream_sid message w :
  (forall n, Orchestrator.store_raises E n = false) ->
  (forall n, Orchestrator.ws_closed E n = false) ->
  (forall n, Orchestrator.ws_send_raises E n = false) ->
  Orchestrator.handle_result E call_id agent stream_sid (DgError message) w
  = (Ok tt,
     {| Orchestrator.current_tts_task := Orchestrator.current_tts_task w;
        Orchestrator.tasks := Orchestrator.tasks w;
        Orchestrator.barge_ins_total := Orchestrator.barge_ins_total w;
        Orchestrator.trace :=
          Orchestrator.trace w ++
          [Orchestrator.ESetCallData call_id "is_ai_speaking" (PBool true);
           Orchestrator.ESynthesize Orchestrator.fallback_text (voice_id agent)]
          ++ fallback_frames stream_sid
               (Orchestrator.tts_chunks E (S (Orchestrator.now w)))
          ++ [Orchestrator.ESetCallData call_id "is_ai_speaking"
                (PBool false)] |}).
Proof.
  intros Hs Hc Hsend.
  unfold Orchestrator.handle_result, Orchestrator.barge_in_check.
  change (is_speech_started (DgError message)) with false.
  cbn [get_is_final].
  change (bool_decide (get_event (DgError message) = Some "error")) with true.
  cbv iota. unfold bind, ret, Orchestrator.store_call. rewrite !Hs.
  rewrite PlaybackFacts.stream_fallback_open by assumption.
  rewrite Hs. unfold Orchestrator.log, Orchestrator.now. cbn.
  rewrite !length_app. cbn.
  rewrite Nat.add_1_r. rewrite <- !app_assoc. reflexivity.
Qed.

Lemma X17_recognizer_error_plays_fallback_witness :
  Orchestrator.handle_result quiet_env "call-1" no_agent_fields None
    (DgError "stream reset") Orchestrator.world0
  = (Ok tt,
     {| Orchestrator.current_tts_task := None;
        Orchestrator.tasks := [];
        Orchestrator.barge_ins_total := 0;
        Orchestrator.trace :=
          [] ++
          [Orchestrator.ESetCallData "call-1" "is_ai_speaking" (PBool true);
           Orchestrator.ESynthesize Orchestrator.fallback_text None]
          ++ fallback_frames None ["chunk-1"; "chunk-2"]
          ++ [Orchestrator.ESetCallData "call-1" "is_ai_speaking"
                (PBool false)] |}).
Proof.
  exact (X17_recognizer_error_plays_fallback quiet_env "call-1"
           no_agent_fields None "stream reset" Orchestrator.world0
           (fun _ => eq_refl) (fun _ => eq_refl) (fun _ => eq_refl)).
Defined.

(** A frame put on the socket, by the handler or by a task. *)
Definition is_frame (e : Orchestrator.effect) : Prop :=
  match e with Orchestrator.ESend _ _ => True | _ => False end.

(** X18. A playback task whose cancellation was requested never sends
    another frame: however often it is scheduled afterwards, and whether or
    not the store answers, the run puts nothing on the socket, the task is
    done, and the chunks it had left are still unsent. *)
Theorem X18_cancelled_task_sends_nothing
    E call_id agent stream_sid tid t n w :
  Orchestrator.tasks w !! tid = Some t ->
  Orchestrator.status t = Orchestrator.CancelRequested ->
  exists w',
    Orchestrator.run E call_id agent stream_sid
      (replicate (S n) (Orchestrator.Step tid)) w = (Ok tt, w')
    /\ Orchestrator.tasks w' !! tid = Some (finished t)
    /\ exists added,
         Orchestrator.trace w' = Orchestrator.trace w ++ added
         /\ Forall (fun e => ~ is_frame e) added.
Proof.
  intros Ht Hst.
  assert (Hidle : forall k w',
             Orchestrator.tasks w' !! tid = Some (finished t) ->
             Orchestrator.run E call_id agent stream_sid
               (replicate k (Orchestrator.Step tid)) w' = (Ok tt, w')).
  { intros k w' Hw'. induction k as [|k IH]; [reflexivity|].
    cbn [replicate Orchestrator.run]. unfold Orchestrator.task_step at 1.
    rewrite Hw'. exact IH. }
  exists (Orchestrator.task_step E call_id stream_sid tid w).
  cbn [replicate Orchestrator.run].
  assert (Hstep : Orchestrator.tasks
                    (Orchestrator.task_step E call_id stream_sid tid w) !! tid
                  = Some (finished t)
                  /\ exists added,
                       Orchestrator.trace
                         (Orchestrator.task_step E call_id stream_sid tid w)
                       = Orchestrator.trace w ++ added
                       /\ Forall (fun e => ~ is_frame e) added).
  { unfold Orchestrator.task_step. rewrite Ht, Hst.
    unfold Orchestrator.task_finally.
    destruct (Orchestrator.store_raises E (Orchestrator.now w)); cbn;
      rewrite list_lookup_alter_eq, Ht;
      (split; [reflexivity|]); eexists [_]; (split; [reflexivity|]);
      repeat constructor; auto. }
  destruct Hstep as (Hdone & Hadded).
  split; [apply Hidle, Hdone|]. split; [exact Hdone|exact Hadded].
Qed.

(** A reply whose playback was cancelled with one chunk still to come. *)
Definition cancelled_world : Orchestrator.world :=
  {| Orchestrator.current_tts_task := Some 0;
     Orchestrator.tasks :=
       [{| Orchestrator.remaining := ["chunk-2"];
           Orchestrator.status := Orchestrator.CancelRequested |}];
     Orchestrator.barge_ins_total := 1;
     Orchestrator.trace := [] |}.

Lemma X18_cancelled_task_sends_nothing_witness :
  exists w',
    Orchestrator.run quiet_env "call-1" no_agent_fields None
      (replicate 3 (Orchestrator.Step 0)) cancelled_world = (Ok tt, w')
    /\ Orchestrator.tasks w' !! 0
       = Some (finished {| Orchestrator.remaining := ["chunk-2"];
                           Orchestrator.status :=
                             Orchestrator.CancelRequested |})
    /\ exists added,
         Orchestrator.trace w' = Orchestrator.trace cancelled_world ++ added
         /\ Forall (fun e => ~ is_frame e) added.
Proof.
  exact (X18_cancelled_task_sends_nothing quiet_env "call-1" no_agent_fields
           None 0 _ 2 cancelled_world eq_refl eq_refl).
Defined.

(** X19. A playback task that is left alone, with the socket open and the
    store answering, finishes after one step per chunk and one more: it has
    sent every remaining chunk in order, each followed by its mark, then
    written the flag [False] and emptied the handle. *)
Theorem X19_playback_runs_to_completion
    E call_id agent stream_sid tid chunks w :
  Orchestrator.tasks w !! tid
    = Some {| Orchestrator.remaining := chunks;
              Orchestrator.status := Orchestrator.Running |} ->
  (forall n, Orchestrator.store_raises E n = false) ->
  (forall n, Orchestrator.ws_closed E n = false) ->
  (forall n, Orchestrator.ws_send_raises E n = false) ->
  Orchestrator.run E call_id agent stream_sid
    (replicate (S (length chunks)) (Orchestrator.Step tid)) w
  = (Ok tt,
     {| Orchestrator.current_tts_task := None;
        Orchestrator.tasks :=
          <[tid := {| Orchestrator.remaining := [];
                      Orchestrator.status := Orchestrator.Finished |}]>
            (Orchestrator.tasks w);
        Orchestrator.barge_ins_total := Orchestrator.barge_ins_total w;
        Orchestrator.trace :=
          Orchestrator.trace w ++ task_frames tid stream_sid chunks
          ++ [Orchestrator.ESetCallData call_id "is_ai_speaking"
                (PBool false)] |}).
Proof.
  intros Ht Hs Hc Hsend. revert w Ht.
  induction chunks as [|c rest IH]; intros w Ht.
  - cbn [length replicate Orchestrator.run]. unfold Orchestrator.task_step.
    rewrite Ht. cbn [Orchestrator.status Orchestrator.remaining].
    unfold Orchestrator.task_finally. rewrite Hs. cbn.
    f_equal. f_equal.
    apply list_eq. intros j. destruct (decide (j = tid)) as [->|Hne].
    + rewrite list_lookup_alter_eq, Ht.
      rewrite list_lookup_insert_eq by (eapply lookup_lt_Some, Ht).
      reflexivity.
    + rewrite list_lookup_alter_ne, list_lookup_insert_ne by auto.
      reflexivity.
  - cbn [length].
    change (replicate (S (S (length rest))) (Orchestrator.Step tid))
      with (Orchestrator.Step tid
              :: replicate (S (length rest)) (Orchestrator.Step tid)).
    cbn [Orchestrator.run]. unfold Orchestrator.task_step at 1. rewrite Ht.
    cbn [Orchestrator.status Orchestrator.remaining].
    rewrite Hc, Hsend. rewrite IH.
    + cbn. f_equal. f_equal.
      * apply list_insert_insert_eq.
      * rewrite <- !app_assoc. reflexivity.
    + cbn. apply list_lookup_insert_eq. eapply lookup_lt_Some, Ht.
Qed.

Lemma X19_playback_runs_to_completion_witness :
  Orchestrator.run quiet_env "call-1" no_agent_fields None
    (replicate (S (length ["chunk-2"])) (Orchestrator.Step 0)) playing_world
  = (Ok tt,
     {| Orchestrator.current_tts_task := None;
        Orchestrator.tasks :=
          <[0 := {| Orchestrator.remaining := [];
                    Orchestrator.status := Orchestrator.Finished |}]>
            (Orchestrator.tasks playing_world);
        Orchestrator.barge_ins_total :=
          Orchestrator.barge_ins_total playing_world;
        Orchestrator.trace :=
          Orchestrator.trace playing_world ++ task_frames 0 None ["chunk-2"]
          ++ [Orchestrator.ESetCallData "call-1" "is_ai_speaking"
                (PBool false)] |}).
Proof.
  exact (X19_playback_runs_to_completion quiet_env "call-1" no_agent_fields
           None 0 ["chunk-2"] playing_world eq_refl
           (fun _ => eq_refl) (fun _ => eq_refl) (fun _ => eq_refl)).
Defined.

(** X20. When the language model answers with an empty text the turn ends
    after the request: the user record is kept, nothing is written to the
    conversation memory or the flag, no task is launched and no assistant
    record is appended. *)
Theorem X20_empty_reply_is_not_played E call_id agent stream_sid t d w :
  (forall n, Orchestrator.store_raises E n = false) ->
  (forall n, Orchestrator.generate E n = GeminiService.Generated "") ->
  str_truthy t = true ->
  Orchestrator.handle_result E call_id agent stream_sid
    (DgTranscript true t d) w
  = (Ok tt,
     {| Orchestrator.current_tts_task := Orchestrator.current_tts_task w;
        Orchestrator.tasks := Orchestrator.tasks w;
        Orchestrator.barge_ins_total := Orchestrator.barge_ins_total w;
        Orchestrator.trace :=
          Orchestrator.trace w ++
          [Orchestrator.EAppendTranscript call_id "user" t;
           Orchestrator.EGetMemory call_id;
           Orchestrator.EGenerate t (GeminiService.Generated "")] |}).
Proof.
  intros Hs Hg Ht.
  unfold Orchestrator.handle_result, Orchestrator.barge_in_check.
  change (is_speech_started (DgTranscript true t d)) with false.
  cbn [get_is_final get_transcript]. rewrite Ht.
  unfold bind, ret, Orchestrator.store_call,
    Orchestrator.gemini_generate_response.
  rewrite !Hs, !Hg. unfold Orchestrator.log. cbn.
  rewrite <- !app_assoc. reflexivity.
Qed.

(** The language model answers with an empty text. *)
Definition mute_env : Orchestrator.env :=
  {| Orchestrator.store_raises := fun _ => false;
     Orchestrator.generate := fun _ => GeminiService.Generated "";
     Orchestrator.tts_chunks := fun _ => ["chunk-1"];
     Orchestrator.ws_closed := fun _ => false;
     Orchestrator.ws_send_raises := fun _ => false |}.

Lemma X20_empty_reply_is_not_played_witness :
  Orchestrator.handle_result mute_env "call-1" no_agent_fields None
    (DgTranscript true "hello" None) Orchestrator.world0
  = (Ok tt,
     {| Orchestrator.current_tts_task := None;
        Orchestrator.tasks := [];
        Orchestrator.barge_ins_total := 0;
        Orchestrator.trace :=
          [] ++
          [Orchestrator.EAppendTranscript "call-1" "user" "hello";
           Orchestrator.EGetMemory "call-1";
           Orchestrator.EGenerate "hello" (GeminiService.Generated "")] |}).
Proof.
  exact (X20_empty_reply_is_not_played mute_env "call-1" no_agent_fields None
           "hello" None Orchestrator.world0
           (fun _ => eq_refl) (fun _ => eq_refl) eq_refl).
Defined.

(** ** The telephony backend's loop body (src/src/ai_orchestrator.py) *)

Module TelephonyFacts.
Import AIOrchestrator.

(** [steps P m]: [m] leaves the task handle alone, only appends to the trace,
    and every effect it appends satisfies [P]. *)
Definition steps {A} (P : effect -> Prop) (m : M world A) : Prop :=
  forall w,
    tts_task (snd (m w)) = tts_task w
    /\ exists added, trace (snd (m w)) = trace w ++ added /\ Forall P added.

Lemma steps_ret {A} P (a : A) : steps P (ret a).
Proof. intros w. split; [done|]. exists []. cbn. rewrite app_nil_r. auto. Qed.

Lemma steps_bind {A B} P (m : M world A) (k : A -> M world B) :
  steps P m -> (forall a, steps P (k a)) -> steps P (bind m k).
Proof.
  intros Hm Hk w. unfold bind.
  destruct (Hm w) as (T1 & l1 & E1 & F1).
  destruct (m w) as [[a|e] w1]; cbn in *.
  - destruct (Hk a w1) as (T2 & l2 & E2 & F2).
    split; [congruence|].
    exists (l1 ++ l2). rewrite E2, E1, app_assoc. split; [done|].
    apply Forall_app; auto.
  - split; [done|]. exists l1. auto.
Qed.

Lemma steps_try_except {A} P (m : M world A) (h : string -> M world A) :
  steps P m -> (forall e, steps P (h e)) -> steps P (try_except m h).
Proof.
  intros Hm Hh w. unfold try_except.
  destruct (Hm w) as (T1 & l1 & E1 & F1).
  destruct (m w) as [[a|e] w1]; cbn in *.
  - split; [done|]. exists l1. auto.
  - destruct (Hh e w1) as (T2 & l2 & E2 & F2).
    split; [congruence|].
    exists (l1 ++ l2). rewrite E2, E1, app_assoc. split; [done|].
    apply Forall_app; auto.
Qed.

Lemma steps_try_finally {A} P (m : M world A) (f : M world unit) :
  steps P m -> steps P f -> steps P (try_finally m f).
Proof.
  intros Hm Hf w. unfold try_finally.
  destruct (Hm w) as (T1 & l1 & E1 & F1).
  destruct (m w) as [r w1]; cbn in *.
  destruct (Hf w1) as (T2 & l2 & E2 & F2).
  assert (tts_task (f w1).2 = tts_task w
          /\ exists added, trace (f w1).2 = trace w ++ added /\ Forall P added).
  { split; [congruence|]. exists (l1 ++ l2). rewrite E2, E1, app_assoc.
    split; [done|]. apply Forall_app; auto. }
  destruct (f w1) as [[[]|e] w2]; cbn in *; auto.
Qed.

Lemma steps_log {A} (P : effect -> Prop) (r : world -> res A)
    (e : world -> effect) :
  (forall w, P (e w)) -> steps P (fun w => (r w, log (e w) w)).
Proof.
  intros HP w. split; [done|]. exists [e w]. cbn. split; [done|].
  constructor; auto.
Qed.

Section Prims.
Variable E : env.
Variable P : effect -> Prop.

Lemma steps_set_call_data cid key v :
  (forall ok, P (ESetCallData cid key v ok)) ->
  steps P (redis_set_call_data E cid key v).
Proof.
  intros HP w. unfold redis_set_call_data.
  destruct (store_raises E (now w)); (split; [done|]);
    eexists [_]; (split; [reflexivity|]); constructor; auto.
Qed.

Lemma steps_set_memory cid :
  (forall m ok, P (ESetMemory cid m ok)) -> steps P (redis_set_memory E cid).
Proof.
  intros HP w. unfold redis_set_memory.
  destruct (store_raises E (now w)); (split; [done|]);
    eexists [_]; (split; [reflexivity|]); constructor; auto.
Qed.

Lemma steps_create_segment row :
  (forall ok, P (ECreateSegment row ok)) -> steps P (create_call_segment E row).
Proof.
  intros HP w. unfold create_call_segment.
  destruct (create_segment_raises E (now w)); (split; [done|]);
    eexists [_]; (split; [reflexivity|]); constructor; auto.
Qed.

Lemma steps_start_chat prompt history :
  (forall ok, P (EStartChat prompt history ok)) ->
  steps P (start_chat E prompt history).
Proof.
  intros HP w. unfold start_chat.
  destruct (start_chat_raises E (now w)); (split; [done|]);
    eexists [_]; (split; [reflexivity|]); constructor; auto.
Qed.

Lemma steps_send_message message :
  (forall r, P (ESendMessage message r)) -> steps P (send_message E message).
Proof.
  intros HP w. unfold send_message. split; [done|].
  eexists [_]; (split; [reflexivity|]); constructor; auto.
Qed.

Lemma steps_memory_append t : steps P (memory_append t).
Proof.
  intros w. split; [done|]. exists []. cbn. rewrite app_nil_r. auto.
Qed.

Lemma steps_memory : steps P memory.
Proof.
  intros w. split; [done|]. exists []. cbn. rewrite app_nil_r. auto.
Qed.

Lemma steps_send_chunks wsid chunks :
  (forall b, P (EClosed b)) -> (forall f ok, P (ESend f ok)) ->
  steps P (send_chunks E wsid chunks).
Proof.
  intros Hc Hs. induction chunks as [|c rest IH]; [apply steps_ret|].
  intros w. cbn [send_chunks].
  destruct (ws_closed E (now w)).
  - split; [done|]. eexists [_]; (split; [reflexivity|]); constructor; auto.
  - destruct (ws_send_raises E _).
    + split; [done|]. eexists [_; _]. cbn. rewrite <- app_assoc.
      split; [reflexivity|]. repeat constructor; auto.
    + destruct (IH (log (ESend (Media (Some wsid) c) true)
                      (log (EClosed false) w))) as (T & l & El & Fl).
      split; [exact T|].
      eexists (_ :: _ :: l). rewrite El. cbn. rewrite <- !app_assoc.
      split; [reflexivity|]. repeat constructor; auto.
Qed.

End Prims.

(** No task is cancelled. *)
Definition not_cancel (e : effect) : Prop :=
  match e with ECancel _ => False | _ => True end.

Lemma steps_turn E cid wsid agent t d :
  steps not_cancel
    (_log_user_message E cid t d >>
     let! ai_response := _get_ai_response E cid agent t in
     if opt_str_truthy ai_response then
       _send_tts_response E wsid agent (default "" ai_response) >>
       _log_ai_message E cid (default "" ai_response) >>
       ret Next
     else ret Next).
Proof.
  apply steps_bind.
  { apply steps_try_except; [|intros; apply steps_ret].
    apply steps_create_segment; intros; exact I. }
  intros _. apply steps_bind.
  { apply steps_try_except; [|intros; apply steps_ret].
    apply steps_bind; [apply steps_memory_append|]. intros _.
    apply steps_bind; [apply steps_memory|]. intros mem.
    apply steps_bind; [apply steps_start_chat; intros; exact I|]. intros _.
    apply steps_bind; [apply steps_send_message; intros; exact I|].
    intros [r|]; [|apply steps_ret].
    destruct (opt_str_truthy (resp_text r)); [|apply steps_ret].
    apply steps_bind; [apply steps_memory_append|]. intros _.
    apply steps_bind; [apply steps_set_memory; intros; exact I|]. intros _.
    apply steps_ret. }
  intros r. destruct (opt_str_truthy r); [|apply steps_ret].
  apply steps_bind.
  { apply steps_try_finally; [|apply steps_set_call_data; intros; exact I].
    apply steps_try_except; [|intros; apply steps_ret].
    apply steps_bind; [apply steps_set_call_data; intros; exact I|]. intros _.
    intros w.
    destruct (steps_send_chunks E not_cancel wsid (tts_chunks E (now w))
                (fun _ => I) (fun _ _ => I)
                (log (ESynthesize (default "" r) (voice_id agent)) w))
      as (T & l & El & Fl).
    split; [exact T|]. eexists (_ :: l). rewrite El. cbn.
    rewrite <- app_assoc. split; [reflexivity|]. constructor; auto. exact I. }
  intros _. apply steps_bind; [|intros; apply steps_ret].
  apply steps_try_except; [|intros; apply steps_ret].
  apply steps_create_segment; intros; exact I.
Qed.


(** The result, when there is one, is [Next]. *)
Definition goes_on (m : M world loop_ctl) : Prop :=
  forall w c, fst (m w) = Ok c -> c = Next.

Lemma goes_on_ret : goes_on (ret Next).
Proof. intros w c [= <-]. reflexivity. Qed.

Lemma goes_on_bind {A} (m : M world A) (k : A -> M world loop_ctl) :
  (forall a, goes_on (k a)) -> goes_on (bind m k).
Proof.
  intros Hk w c. unfold bind. destruct (m w) as [[a|e] w1]; cbn.
  - apply Hk.
  - discriminate.
Qed.

(** The transcription half of the loop body. *)
Definition transcription E cid wsid agent (result : dg_result)
  : M world loop_ctl :=
  if get_is_final result then
    let transcript := strip (get_transcript result) in
    if str_truthy transcript then
      _log_user_message E cid transcript (get_duration result) >>
      let! ai_response := _get_ai_response E cid agent transcript in
      if opt_str_truthy ai_response then
        _send_tts_response E wsid agent (default "" ai_response) >>
        _log_ai_message E cid (default "" ai_response) >>
        ret Next
      else ret Next
    else ret Next
  else ret Next.

Lemma steps_transcription E cid wsid agent result :
  steps not_cancel (transcription E cid wsid agent result).
Proof.
  unfold transcription. destruct (get_is_final result); [|apply steps_ret].
  destruct (str_truthy _); [|apply steps_ret]. apply steps_turn.
Qed.

Lemma goes_on_transcription E cid wsid agent result :
  goes_on (transcription E cid wsid agent result).
Proof.
  unfold transcription. destruct (get_is_final result); [|apply goes_on_ret].
  destruct (str_truthy _); [|apply goes_on_ret].
  apply goes_on_bind. intros _. apply goes_on_bind. intros r.
  destruct (opt_str_truthy r); [|apply goes_on_ret].
  apply goes_on_bind. intros _. apply goes_on_bind. intros _.
  apply goes_on_ret.
Qed.

End TelephonyFacts.

(** X21. The telephony handler never assigns its [tts_task]: starting, as the
    handler does, with no task, one loop iteration leaves the handle empty,
    cancels nothing and never asks the loop to stop, whatever the recognizer
    sent and whatever the flag reads. *)
Theorem X21_telephony_barge_in_never_cancels E call_id websocket_id agent result w :
  AIOrchestrator.tts_task w = None ->
  let out := AIOrchestrator.handle_result E call_id websocket_id agent result w in
  fst out <> Ok AIOrchestrator.Break
  /\ AIOrchestrator.tts_task (snd out) = None
  /\ exists added,
       AIOrchestrator.trace (snd out) = AIOrchestrator.trace w ++ added
       /\ Forall TelephonyFacts.not_cancel added.
Proof.
  intros Hnone out. subst out.
  unfold AIOrchestrator.handle_result.
  fold (TelephonyFacts.transcription E call_id websocket_id agent result).
  pose proof (TelephonyFacts.steps_transcription E call_id websocket_id agent
                result) as Hsteps.
  pose proof (TelephonyFacts.goes_on_transcription E call_id websocket_id agent
                result) as Hgo.
  destruct (is_speech_started result).
  - unfold bind, AIOrchestrator.get_flag.
    destruct (AIOrchestrator.store_raises E (AIOrchestrator.now w)); cbn.
    + split; [discriminate|]. split; [exact Hnone|].
      eexists [_]. split; [reflexivity|]. repeat constructor.
    + set (w1 := AIOrchestrator.log _ w).
      assert (Hlive : AIOrchestrator.live_task E w1 = None)
        by (unfold AIOrchestrator.live_task; subst w1; cbn; rewrite Hnone;
            reflexivity).
      replace (if AIOrchestrator.flag_truthy E (AIOrchestrator.now w)
               then AIOrchestrator.live_task E w1 else None)
        with (@None nat)
        by (destruct (AIOrchestrator.flag_truthy E _); congruence).
      destruct (Hsteps w1) as (T & l & El & Fl).
      split; [intros H; apply Hgo in H; discriminate|].
      split; [rewrite T; exact Hnone|].
      eexists (_ :: l). rewrite El. subst w1. cbn. rewrite <- app_assoc.
      split; [reflexivity|]. constructor; [exact I|exact Fl].
  - destruct (Hsteps w) as (T & l & El & Fl).
    split; [intros H; apply Hgo in H; discriminate|].
    split; [rewrite T; exact Hnone|]. exists l. auto.
Qed.

Lemma X21_telephony_barge_in_never_cancels_witness :
  let out := AIOrchestrator.handle_result telephony_env "call-1" "ws-1"
               no_agent_fields DgSpeechStarted telephony_world0 in
  fst out <> Ok AIOrchestrator.Break
  /\ AIOrchestrator.tts_task (snd out) = None
  /\ exists added,
       AIOrchestrator.trace (snd out)
       = AIOrchestrator.trace telephony_world0 ++ added
       /\ Forall TelephonyFacts.not_cancel added.
Proof.
  exact (X21_telephony_barge_in_never_cancels telephony_env "call-1" "ws-1"
           no_agent_fields DgSpeechStarted telephony_world0 eq_refl).
Defined.






Module LoopFacts.
Import AIOrchestrator.






Section Store.
Variable E : env.
Hypothesis store_up : forall n, store_raises E n = false.




End Store.
End LoopFacts.




(** ** The call bring-up webhook: what it writes and what it answers *)

(** A collaborator call of the webhook that raised. *)
Definition failed (e : AIOrchestrator.webhook_effect) : bool :=
  match e with
  | AIOrchestrator.WGetPhoneNumber _ (Raised _)
  | AIOrchestrator.WParseClientState AIOrchestrator.NotADict
  | AIOrchestrator.WGetAgent _ (Raised _)
  | AIOrchestrator.WGetCallRecord (Raised _)
  | AIOrchestrator.WCreateCallRecord false
  | AIOrchestrator.WUpdateCallRecord _ false
  | AIOrchestrator.WSetCallData _ false => true
  | _ => false
  end.

(** A read of the webhook: it changes nothing outside the handler. *)
Definition is_lookup (e : AIOrchestrator.webhook_effect) : Prop :=
  match e with
  | AIOrchestrator.WGetPhoneNumber _ _ | AIOrchestrator.WParseClientState _
  | AIOrchestrator.WGetAgent _ _ | AIOrchestrator.WGetCallRecord _ => True
  | _ => False
  end.

(** What the bring-up of a call is made of: a call record created, an entry
    of the call state written, the media task started. *)
Definition brings_up (e : AIOrchestrator.webhook_effect) : Prop :=
  match e with
  | AIOrchestrator.WCreateCallRecord true
  | AIOrchestrator.WSetCallData _ true
  | AIOrchestrator.WCreateMediaTask _ => True
  | _ => False
  end.

Module WebhookFacts.
Import AIOrchestrator.

Definition W : Type := list webhook_effect.

(** [only P m]: [m] only appends to the trace, and only effects in [P]. *)
Definition only {A} (P : webhook_effect -> Prop) (m : M W A) : Prop :=
  forall t, exists added, snd (m t) = t ++ added /\ Forall P added.

Lemma only_ret {A} P (a : A) : only P (ret a).
Proof. intros t. exists []. cbn. rewrite app_nil_r. auto. Qed.

Lemma only_raise {A} P e : only P (@raise W A e).
Proof. intros t. exists []. cbn. rewrite app_nil_r. auto. Qed.

Lemma only_bind {A B} P (m : M W A) (k : A -> M W B) :
  only P m -> (forall a, only P (k a)) -> only P (bind m k).
Proof.
  intros Hm Hk t. unfold bind.
  destruct (Hm t) as (l1 & E1 & F1).
  destruct (m t) as [[a|e] t1]; cbn in *.
  - destruct (Hk a t1) as (l2 & E2 & F2).
    exists (l1 ++ l2). rewrite E2, E1, app_assoc. split; [done|].
    apply Forall_app; auto.
  - exists l1. auto.
Qed.

Lemma only_wcall {A} (P : webhook_effect -> Prop) (r : res A) e :
  P e -> only P (wcall r e).
Proof. intros HP t. exists [e]. cbn. split; [done|]. constructor; auto. Qed.

Lemma only_wlog (P : webhook_effect -> Prop) e : P e -> only P (wlog e).
Proof. intros HP t. exists [e]. cbn. split; [done|]. constructor; auto. Qed.

Lemma only_guarded (P : webhook_effect -> Prop) b e1 e2 :
  P e1 -> P e2 -> only P (guarded b e1 e2).
Proof. intros H1 H2. unfold guarded. destruct b; apply only_wcall; auto. Qed.

(** A call followed by the rest: the rest runs only when the call
    returned. *)
Lemma only_bind_wcall {A B} (P : webhook_effect -> Prop) (r : res A) e
    (k : A -> M W B) :
  P e -> (forall a, r = Ok a -> only P (k a)) -> only P (bind (wcall r e) k).
Proof.
  intros HP Hk t. unfold bind, wcall. destruct r as [a|x].
  - destruct (Hk a eq_refl (t ++ [e])) as (l & El & Fl).
    exists (e :: l). rewrite El, <- app_assoc. split; [done|].
    constructor; auto.
  - exists [e]. cbn. split; [done|]. constructor; auto.
Qed.

(** The agent selection of the handler. *)
Definition select WE p : M W (webhook_response + option string) :=
  if bool_decide (p_direction p = Some "inbound") then
    let! phone_number_record := get_phone_number_by_column (p_to_number p) in
    match phone_number_record with
    | Some r =>
        if opt_str_truthy (pn_ai_agent_id r)
        then ret (inr (pn_ai_agent_id r))
        else ret (inl no_agent_found)
    | None => ret (inl no_agent_found)
    end
  else if bool_decide (p_direction p = Some "outbound")
          && opt_str_truthy (p_client_state p) then
    match parse_client_state WE with
    | JSONDecodeError =>
        wlog (WParseClientState JSONDecodeError) >> ret (inr None)
    | ClientState a =>
        wlog (WParseClientState (ClientState a)) >> ret (inr a)
    | NotADict =>
        wcall (Raised "AttributeError") (WParseClientState NotADict)
    end
  else ret (inr None).

Lemma only_select P WE p :
  (forall n r, P (WGetPhoneNumber n r)) -> (forall r, P (WParseClientState r)) ->
  only P (select WE p).
Proof.
  intros H1 H2. unfold select.
  destruct (bool_decide (p_direction p = Some "inbound")).
  - apply only_bind; [apply only_wcall, H1|].
    intros [r|]; [|apply only_ret].
    destruct (opt_str_truthy (pn_ai_agent_id r)); apply only_ret.
  - destruct (bool_decide (p_direction p = Some "outbound") && _);
      [|apply only_ret].
    destruct (parse_client_state WE).
    + apply only_bind; [apply only_wlog, H2|intros; apply only_ret].
    + apply only_bind; [apply only_wlog, H2|intros; apply only_ret].
    + apply only_wcall, H2.
Qed.

(** The writes of the handler once the agent is known and active. *)
Definition bring_up WE p (existing_call : bool) : M W webhook_response :=
  (if existing_call
   then guarded (update_call_record_raises WE)
          (WUpdateCallRecord "in-progress" true)
          (WUpdateCallRecord "in-progress" false)
   else create_call_record_from_dict) >>
  set_call_data_expire_seconds "agent_config" >>
  set_call_data_expire_seconds "conversation_memory" >>
  set_call_data_expire_seconds "is_ai_speaking" >>
  set_call_data_expire_seconds "current_status" >>
  wlog (WCreateMediaTask (default "" (p_media_url p))) >>
  ret (Response 200 NoBody).

(** The handler on an answered event that carries a media URL. *)
Definition answered WE p : M W webhook_response :=
  let! selected := select WE p in
  match selected with
  | inl early => ret early
  | inr ai_agent_id =>
      if negb (opt_str_truthy ai_agent_id) then
        ret (Response 200 (Message "Agent not determined"))
      else
        let! ai_agent_config :=
          wcall (get_ai_agent WE)
                (WGetAgent (default "" ai_agent_id) (get_ai_agent WE)) in
        match ai_agent_config with
        | Some a =>
            if ag_is_active a then
              match ag_id a with
              | None => raise "KeyError"
              | Some _ =>
                  let! existing_call :=
                    wcall (get_call_record WE)
                          (WGetCallRecord (get_call_record WE)) in
                  bring_up WE p existing_call
              end
            else ret (Response 200 (Message "Agent not found or inactive"))
        | None => ret (Response 200 (Message "Agent not found or inactive"))
        end
  end.

Lemma webhook_body_answered WE p :
  bool_decide (p_state p = Some "answered") && opt_str_truthy (p_media_url p)
  = true ->
  webhook_body WE p = answered WE p.
Proof. intros H. unfold webhook_body. rewrite H. reflexivity. Qed.

Lemma webhook_body_other WE p :
  bool_decide (p_state p = Some "answered") && opt_str_truthy (p_media_url p)
  = false ->
  webhook_body WE p
  = if bool_decide (p_state p = Some "ended") then
      guarded (update_call_record_raises WE)
        (WUpdateCallRecord "ended" true) (WUpdateCallRecord "ended" false) >>
      ret (Response 200 NoBody)
    else ret (Response 200 NoBody).
Proof. intros H. unfold webhook_body. rewrite H. reflexivity. Qed.

(** The bring-up stops at its first write of the call state, which raises:
    the record may have been updated, nothing else was done. *)
Lemma only_bring_up WE p existing_call :
  only (fun e => ~ brings_up e) (bring_up WE p existing_call).
Proof.
  unfold bring_up. apply only_bind.
  { destruct existing_call;
      [apply only_guarded | apply only_wcall]; cbn; auto. }
  intros _. unfold set_call_data_expire_seconds at 1.
  apply only_bind_wcall; [cbn; auto|]. intros a [=].
Qed.

Lemma only_webhook_body WE p :
  only (fun e => ~ brings_up e) (webhook_body WE p).
Proof.
  destruct (bool_decide (p_state p = Some "answered")
            && opt_str_truthy (p_media_url p)) eqn:Hans.
  - rewrite (webhook_body_answered WE p Hans). unfold answered.
    apply only_bind; [apply only_select; cbn; auto|].
    intros [early|ai_agent_id]; [apply only_ret|].
    destruct (negb (opt_str_truthy ai_agent_id)); [apply only_ret|].
    apply only_bind; [apply only_wcall; cbn; auto|].
    intros [a|]; [|apply only_ret].
    destruct (ag_is_active a); [|apply only_ret].
    destruct (ag_id a); [|apply only_raise].
    apply only_bind; [apply only_wcall; cbn; auto|]. intros existing.
    apply only_bring_up.
  - rewrite (webhook_body_other WE p Hans).
    destruct (bool_decide (p_state p = Some "ended")); [|apply only_ret].
    apply only_bind; [apply only_guarded; cbn; auto|].
    intros; apply only_ret.
Qed.

(** [outcome Post m]: [m] returns a value in [Post] after calls that all
    succeeded, or it raises, and then every call but the last one it made
    had succeeded. *)
Definition outcome {A} (Post : A -> Prop) (m : M W A) : Prop :=
  forall t, exists added,
    snd (m t) = t ++ added
    /\ Forall (fun e => failed e = false) (removelast added)
    /\ match fst (m t) with
       | Ok a => Post a /\ Forall (fun e => failed e = false) added
       | Raised _ => True
       end.

Lemma Forall_removelast {A} (P : A -> Prop) (l : list A) :
  Forall P l -> Forall P (removelast l).
Proof.
  induction l as [|x l IH]; [auto|]. intros H. inversion H; subst.
  destruct l as [|y l]; [constructor|]. cbn. constructor; auto.
Qed.

Lemma Forall_removelast_app {A} (P : A -> Prop) (l1 l2 : list A) :
  Forall P l1 -> Forall P (removelast l2) -> Forall P (removelast (l1 ++ l2)).
Proof.
  intros H1 H2. destruct l2 as [|x l2].
  - rewrite app_nil_r. apply Forall_removelast, H1.
  - rewrite removelast_app by discriminate. apply Forall_app; auto.
Qed.

Lemma outcome_ret {A} (Post : A -> Prop) a : Post a -> outcome Post (ret a).
Proof.
  intros H t. exists []. cbn. rewrite app_nil_r. auto.
Qed.

Lemma outcome_raise {A} (Post : A -> Prop) e : outcome Post (raise e).
Proof.
  intros t. exists []. cbn. rewrite app_nil_r. auto.
Qed.

Lemma outcome_bind {A B} (Q : A -> Prop) (Post : B -> Prop)
    (m : M W A) (k : A -> M W B) :
  outcome Q m -> (forall a, Q a -> outcome Post (k a)) ->
  outcome Post (bind m k).
Proof.
  intros Hm Hk t. unfold bind.
  destruct (Hm t) as (l1 & E1 & L1 & R1).
  destruct (m t) as [[a|e] t1]; cbn in *.
  - destruct R1 as (Qa & F1).
    destruct (Hk a Qa t1) as (l2 & E2 & L2 & R2).
    destruct (k a t1) as [[b|e] t2]; cbn in *;
      (exists (l1 ++ l2)); rewrite E2, E1, app_assoc; (split; [done|]);
      (split; [apply Forall_removelast_app; auto|]); [|exact I].
    destruct R2. split; [done|]. apply Forall_app; auto.
  - exists l1. auto.
Qed.

Lemma outcome_wcall {A} (Post : A -> Prop) (r : res A) e :
  match r with Ok a => Post a /\ failed e = false | Raised _ => True end ->
  outcome Post (wcall r e).
Proof.
  intros H t. exists [e]. cbn. split; [done|]. split; [constructor|].
  destruct r; [|exact I].
  destruct H. split; [done|]. repeat constructor; auto.
Qed.

Lemma outcome_guarded b e1 e2 :
  failed e1 = false -> outcome (fun _ => True) (guarded b e1 e2).
Proof.
  intros H1. unfold guarded. destruct b; apply outcome_wcall; auto.
Qed.

Lemma outcome_wlog e : failed e = false -> outcome (fun _ => True) (wlog e).
Proof. intros H. apply (outcome_wcall (fun _ => True) (Ok tt)). auto. Qed.

Definition answers_200 (r : webhook_response) : Prop :=
  exists content, r = Response 200 content.

Lemma outcome_webhook_body WE p : outcome answers_200 (webhook_body WE p).
Proof.
  assert (Hret : forall c, outcome answers_200 (ret (Response 200 c)))
    by (intros c; apply outcome_ret; exists c; reflexivity).
  destruct (bool_decide (p_state p = Some "answered")
            && opt_str_truthy (p_media_url p)) eqn:Hans.
  - rewrite (webhook_body_answered WE p Hans). unfold answered.
    apply (outcome_bind
             (fun s => match s with inl r => answers_200 r | inr _ => True end)).
    { unfold select. destruct (bool_decide (p_direction p = Some "inbound")).
      - apply (outcome_bind (fun _ => True)).
        + apply outcome_wcall. exact I.
        + intros [r|] _; [destruct (opt_str_truthy (pn_ai_agent_id r))|];
            apply outcome_ret; try exact I; eexists; reflexivity.
      - destruct (bool_decide (p_direction p = Some "outbound") && _);
          [|apply outcome_ret; exact I].
        destruct (parse_client_state WE).
        + apply (outcome_bind (fun _ => True)); [apply outcome_wlog; auto|].
          intros; apply outcome_ret; exact I.
        + apply (outcome_bind (fun _ => True)); [apply outcome_wlog; auto|].
          intros; apply outcome_ret; exact I.
        + apply outcome_wcall. exact I. }
    intros [early|ai_agent_id] Hsel; [apply outcome_ret, Hsel|].
    destruct (negb (opt_str_truthy ai_agent_id)); [apply Hret|].
    apply (outcome_bind (fun _ => True)).
    { apply outcome_wcall. destruct (get_ai_agent WE); auto. }
    intros [a|] _; [|apply Hret].
    destruct (ag_is_active a); [|apply Hret].
    destruct (ag_id a); [|apply outcome_raise].
    apply (outcome_bind (fun _ => True)).
    { apply outcome_wcall. destruct (get_call_record WE); auto. }
    intros existing _. unfold bring_up.
    apply (outcome_bind (fun _ => True)).
    { destruct existing; [apply outcome_guarded; reflexivity|].
      apply outcome_wcall. exact I. }
    intros _ _.
    do 4 (apply (outcome_bind (fun _ => True));
          [apply outcome_wcall; exact I|]; intros _ _).
    apply (outcome_bind (fun _ => True)); [apply outcome_wlog; reflexivity|].
    intros _ _. apply Hret.
  - rewrite (webhook_body_other WE p Hans).
    destruct (bool_decide (p_state p = Some "ended")); [|apply Hret].
    apply (outcome_bind (fun _ => True));
      [apply outcome_guarded; reflexivity|]. intros _ _. apply Hret.
Qed.

End WebhookFacts.

(** X25. The webhook never raises and answers with status 200 or with its
    500 object, nothing else.  It answers 200 only when every collaborator
    call it made succeeded; in every case the calls before the last one had
    succeeded, so a call that raises is the last thing the handler does. *)
Theorem X25_webhook_200_means_no_call_failed WE request :
  let out := AIOrchestrator.signalwire_webhook_handler WE request in
  (fst out = AIOrchestrator.ReturnedHTTPException 500
   \/ exists content,
        fst out = AIOrchestrator.Response 200 content
        /\ Forall (fun e => failed e = false) (snd out))
  /\ Forall (fun e => failed e = false) (removelast (snd out)).
Proof.
  cbv zeta. unfold AIOrchestrator.signalwire_webhook_handler.
  destruct request as [| |p]; [split; [left; reflexivity|constructor]..|].
  destruct (WebhookFacts.outcome_webhook_body WE p []) as (l & El & L & R).
  destruct (AIOrchestrator.webhook_body WE p []) as [[r|e] t]; cbn in *;
    subst t.
  - destruct R as ((c & ->) & F). split; [right; eauto|exact L].
  - split; [left; reflexivity|exact L].
Qed.

(** The caller names the agent in [client_state]; [active] tells whether the
    agent is active. *)
Definition routed_env (active : bool) : AIOrchestrator.webhook_env :=
  {| AIOrchestrator.parse_client_state :=
       AIOrchestrator.ClientState (Some "agent-1");
     AIOrchestrator.get_ai_agent :=
       Ok (Some {| AIOrchestrator.ag_id := Some "agent-1";
                   AIOrchestrator.ag_is_active := active |});
     AIOrchestrator.get_call_record := Ok false;
     AIOrchestrator.update_call_record_raises := false |}.

Definition answered_outbound : AIOrchestrator.payload :=
  {| AIOrchestrator.p_call_id := Some "call-1";
     AIOrchestrator.p_from_number := Some "+15550100";
     AIOrchestrator.p_to_number := Some "+15550001";
     AIOrchestrator.p_media_url := Some "wss://media.example/call-1";
     AIOrchestrator.p_state := Some "answered";
     AIOrchestrator.p_direction := Some "outbound";
     AIOrchestrator.p_client_state := Some "{ai_agent_id: agent-1}" |}.

(** X26. Unless the agent lookup yields an active agent, a webhook that is
    not an [ended] event writes nothing: no call record is created or updated,
    no call state is seeded and no media task is started; all it does is
    look things up. *)
Theorem X26_unknown_agent_writes_nothing WE p :
  AIOrchestrator.p_state p <> Some "ended" ->
  (forall a, AIOrchestrator.get_ai_agent WE = Ok (Some a) ->
             AIOrchestrator.ag_is_active a = false) ->
  Forall is_lookup
    (snd (AIOrchestrator.signalwire_webhook_handler WE
            (AIOrchestrator.Object p))).
Proof.
  intros Hstate Hagent.
  assert (H : WebhookFacts.only is_lookup (AIOrchestrator.webhook_body WE p)).
  { destruct (bool_decide (AIOrchestrator.p_state p = Some "answered")
              && opt_str_truthy (AIOrchestrator.p_media_url p)) eqn:Hans.
    - rewrite (WebhookFacts.webhook_body_answered WE p Hans).
      unfold WebhookFacts.answered.
      apply WebhookFacts.only_bind;
        [apply WebhookFacts.only_select; intros; exact I|].
      intros [early|ai_agent_id]; [apply WebhookFacts.only_ret|].
      destruct (negb (opt_str_truthy ai_agent_id));
        [apply WebhookFacts.only_ret|].
      apply WebhookFacts.only_bind_wcall; [exact I|].
      intros [a|] Ha; [|apply WebhookFacts.only_ret].
      rewrite (Hagent a Ha). apply WebhookFacts.only_ret.
    - rewrite (WebhookFacts.webhook_body_other WE p Hans).
      rewrite bool_decide_eq_false_2 by exact Hstate.
      apply WebhookFacts.only_ret. }
  unfold AIOrchestrator.signalwire_webhook_handler.
  destruct (H []) as (l & El & Fl).
  destruct (AIOrchestrator.webhook_body WE p []) as [[r|e] t]; cbn in *;
    subst t; exact Fl.
Qed.

Lemma X26_unknown_agent_writes_nothing_witness :
  Forall is_lookup
    (snd (AIOrchestrator.signalwire_webhook_handler (routed_env false)
            (AIOrchestrator.Object answered_outbound))).
Proof.
  apply (X26_unknown_agent_writes_nothing (routed_env false)
           answered_outbound).
  - discriminate.
  - intros a [= <-]. reflexivity.
Defined.

(** X27. The webhook never brings a call up: whatever the request and
    whatever the collaborators answer, it creates no call record, writes no
    entry of the call state and starts no media task.  The creation of the
    record and the writes of the call state are made with arguments their
    methods do not take, and the task is started only after them. *)
Theorem X27_webhook_never_brings_a_call_up WE request :
  Forall (fun e => ~ brings_up e)
    (snd (AIOrchestrator.signalwire_webhook_handler WE request)).
Proof.
  unfold AIOrchestrator.signalwire_webhook_handler.
  destruct request as [| |p]; [constructor..|].
  destruct (WebhookFacts.only_webhook_body WE p []) as (l & El & Fl).
  destruct (AIOrchestrator.webhook_body WE p []) as [[r|e] t]; cbn in *;
    subst t; exact Fl.
Qed.
